(** * Growth_Phase dashboard: date windows, paginated fetches, trend series

    A shallow embedding of the helpers and fetch loops of [flask_app.py]
    (and of the deal fetch of [streamlit_app.py]), followed by the
    properties proved about them.

    Conventions.
    - A calendar date is the triple Python's [datetime.date] stores; adding
      a [timedelta(days=n)] raises [OverflowError] outside
      [date.min .. date.max], which is [None] here.
    - A [datetime] is a date and the microsecond of the day; the two reads
      of [datetime.now()] in [get_comparison_dates] are two arguments.
    - A time-zone aware timestamp is the instant it denotes, in
      microseconds since the Unix epoch; aware datetimes compare by instant.
    - An HTTP source is a function from the requested URL (or cursor) to
      the response; every request a loop issues is appended to a trace.
    - [while] loops run on fuel and return [None] when it runs out. *)

From Stdlib Require Import ZArith QArith Lia List Bool String Ascii.
From stdpp Require Import base option list strings pretty gmap.

Local Open Scope Z_scope.

(* ================================================================== *)
(** * Part I: definitions *)
(* ================================================================== *)

(** ** The proleptic Gregorian calendar of [datetime] *)

Module Calendar.

Record date := mkdate { year : Z; month : Z; day : Z }.

Definition MINYEAR : Z := 1.
Definition MAXYEAR : Z := 9999.

Definition is_leap (y : Z) : bool :=
  (y mod 4 =? 0) && (negb (y mod 100 =? 0) || (y mod 400 =? 0)).

Definition days_in_month (y m : Z) : Z :=
  if m =? 2 then (if is_leap y then 29 else 28)
  else if (m =? 4) || (m =? 6) || (m =? 9) || (m =? 11) then 30
  else 31.

(** Days in the year before the first day of month [m]. *)
Definition days_before_month (y m : Z) : Z :=
  let l := if is_leap y then 1 else 0 in
  match m with
  | 1 => 0 | 2 => 31 | 3 => 59 + l | 4 => 90 + l | 5 => 120 + l
  | 6 => 151 + l | 7 => 181 + l | 8 => 212 + l | 9 => 243 + l
  | 10 => 273 + l | 11 => 304 + l | _ => 334 + l
  end.

(** Days before January 1st of year [y]. *)
Definition days_before_year (y : Z) : Z :=
  (y - 1) * 365 + (y - 1) / 4 - (y - 1) / 100 + (y - 1) / 400.

(** [date.toordinal()]: 0001-01-01 is day 1. *)
Definition toordinal (d : date) : Z :=
  days_before_year (year d) + days_before_month (year d) (month d) + day d.

Definition valid_dateb (d : date) : bool :=
  (MINYEAR <=? year d) && (year d <=? MAXYEAR) &&
  (1 <=? month d) && (month d <=? 12) &&
  (1 <=? day d) && (day d <=? days_in_month (year d) (month d)).

Definition valid_date (d : date) : Prop := valid_dateb d = true.

(** Comparison of dates, as Python compares the (year, month, day) triples. *)
Definition date_ltb (a b : date) : bool :=
  (year a <? year b) ||
  ((year a =? year b) &&
   ((month a <? month b) || ((month a =? month b) && (day a <? day b)))).

Definition date_eqb (a b : date) : bool :=
  (year a =? year b) && (month a =? month b) && (day a =? day b).

Definition date_leb (a b : date) : bool := date_ltb a b || date_eqb a b.

(** [d + timedelta(days=1)]; [OverflowError] past 9999-12-31. *)
Definition next_day (d : date) : option date :=
  if day d <? days_in_month (year d) (month d)
  then Some (mkdate (year d) (month d) (day d + 1))
  else if month d <? 12 then Some (mkdate (year d) (month d + 1) 1)
  else if year d <? MAXYEAR then Some (mkdate (year d + 1) 1 1)
  else None.

(** [d - timedelta(days=1)]; [OverflowError] before 0001-01-01. *)
Definition prev_day (d : date) : option date :=
  if 1 <? day d then Some (mkdate (year d) (month d) (day d - 1))
  else if 1 <? month d
       then Some (mkdate (year d) (month d - 1)
                         (days_in_month (year d) (month d - 1)))
  else if MINYEAR <? year d then Some (mkdate (year d - 1) 12 31)
  else None.

Fixpoint iter_days (step : date -> option date) (n : nat) (d : date)
  : option date :=
  match n with
  | O => Some d
  | S n' => match step d with
            | Some d' => iter_days step n' d'
            | None => None
            end
  end.

(** [d + timedelta(days=n)] for any integer [n], one day at a time. *)
Definition add_days (d : date) (n : Z) : option date :=
  if 0 <=? n then iter_days next_day (Z.to_nat n) d
  else iter_days prev_day (Z.to_nat (- n)) d.

(** [d.replace(day=1)]. *)
Definition replace_day1 (d : date) : date := mkdate (year d) (month d) 1.

Definition pad (width : nat) (s : string) : string :=
  String.append (string_of_list_ascii
                   (repeat "0"%char (width - String.length s))) s.

Definition digits (z : Z) : string := pretty (Z.to_N z).

(** [d.strftime('%Y-%m-%d')] (four-digit years, as for every year from
    1000 on). *)
Definition strftime_ymd (d : date) : string :=
  String.append (pad 4 (digits (year d)))
    (String.append "-"
      (String.append (pad 2 (digits (month d)))
        (String.append "-" (pad 2 (digits (day d)))))).

End Calendar.

Import Calendar.

(** ** Exceptions *)

Inductive exn : Type :=
| OverflowError      (* date value out of range *)
| ValueError         (* year out of range in [replace] *)
| KeyError           (* a column that the frame does not have *)
| RequestException.  (* the HTTP request raised *)

Inductive outcome (A : Type) : Type :=
| Returns (a : A)
| Raises (e : exn).
Arguments Returns {A} a.
Arguments Raises {A} e.

#[global] Instance outcome_ret : MRet outcome := fun A a => Returns a.
#[global] Instance outcome_bind : MBind outcome := fun A B f m =>
  match m with
  | Returns a => f a
  | Raises e => Raises e
  end.

(** A library call that fails with exception [e]. *)
Definition or_raise {A} (e : exn) (o : option A) : outcome A :=
  match o with
  | Some a => Returns a
  | None => Raises e
  end.

(** [try: body except Exception: handler]. *)
Definition try_except {A} (body : outcome A) (handler : A) : A :=
  match body with
  | Returns a => a
  | Raises _ => handler
  end.

(** ** [datetime]: a date and the microsecond of the day *)

Definition DAY_US : Z := 86400000000.

Record datetime := mkdatetime { dt_date : date; dt_us : Z }.

Definition valid_datetime (t : datetime) : Prop :=
  valid_date (dt_date t) /\ 0 <= dt_us t < DAY_US.

Definition datetime_ltb (a b : datetime) : bool :=
  date_ltb (dt_date a) (dt_date b) ||
  (date_eqb (dt_date a) (dt_date b) && (dt_us a <? dt_us b)).

Definition datetime_leb (a b : datetime) : bool := negb (datetime_ltb b a).

(** [t + timedelta(days=n)]. *)
Definition plus_days (t : datetime) (n : Z) : outcome datetime :=
  d ← or_raise OverflowError (add_days (dt_date t) n);
  mret (mkdatetime d (dt_us t)).

(** [(a - b).days]: the difference is normalised so that the seconds and
    microseconds are not negative, hence the floor. *)
Definition minus_days (a b : datetime) : Z :=
  ((toordinal (dt_date a) - toordinal (dt_date b)) * DAY_US
   + (dt_us a - dt_us b)) / DAY_US.

(** [t.replace(year=y, month=m, day=d)]. *)
Definition replace_ymd (t : datetime) (y m d : Z) : outcome datetime :=
  if valid_dateb (mkdate y m d) then Returns (mkdatetime (mkdate y m d) (dt_us t))
  else Raises ValueError.

(** ** [get_comparison_dates] (flask_app.py, lines 93-127) *)

Record comparison := mkcomparison {
  month1_start : date;
  month1_end : date;
  month2_start : date;
  month2_end : date;
  base_date : datetime
}.

(** [now1] and [now2] are the two values [datetime.now()] returns, in the
    order of the calls. *)
Definition get_comparison_dates (now1 now2 : datetime) (month_offset : Z)
  : outcome comparison :=
  base_date ← (if 0 <? month_offset
               then plus_days now1 (- (30 * month_offset))
               else Returns now1);
  let today := now2 in
  month1_start ← replace_ymd base_date (year (dt_date base_date))
                             (month (dt_date base_date)) 1;
  month1_end ←
    (if (year (dt_date base_date) =? year (dt_date today))
        && (month (dt_date base_date) =? month (dt_date today))
     then Returns today
     else
       next_month ←
         (if month (dt_date base_date) =? 12
          then replace_ymd base_date (year (dt_date base_date) + 1) 1 1
          else replace_ymd base_date (year (dt_date base_date))
                           (month (dt_date base_date) + 1) 1);
       plus_days next_month (-1));
  let days_passed := minus_days month1_end month1_start in
  last_month_last_day ← plus_days month1_start (-1);
  month2_start ← replace_ymd last_month_last_day
                             (year (dt_date last_month_last_day))
                             (month (dt_date last_month_last_day)) 1;
  let month2_end :=
    try_except
      (month2_end ← plus_days month2_start days_passed;
       mret (if datetime_ltb last_month_last_day month2_end
             then last_month_last_day else month2_end))
      last_month_last_day in
  mret (mkcomparison (dt_date month1_start) (dt_date month1_end)
                     (dt_date month2_start) (dt_date month2_end) base_date).

(** ** Loops *)

Inductive step (S : Type) : Type :=
| Continue (s : S)        (* the end of the body was reached *)
| Break (s : S)           (* [break] *)
| Throw (e : exn) (s : S). (* an exception leaves the loop, in state [s] *)
Arguments Continue {S} s.
Arguments Break {S} s.
Arguments Throw {S} e s.

(** How a loop ended, and the state it ended in. *)
Inductive loop_end (S : Type) : Type :=
| Exited (s : S)
| Threw (e : exn) (s : S).
Arguments Exited {S} s.
Arguments Threw {S} e s.

(** [while cond: body], at most [fuel] tests of the condition. *)
Fixpoint while_loop {S : Type} (fuel : nat) (cond : S -> bool)
  (body : S -> step S) (s : S) : option (loop_end S) :=
  match fuel with
  | O => None
  | Datatypes.S fuel' =>
      if cond s then
        match body s with
        | Continue s' => while_loop fuel' cond body s'
        | Break s' => Some (Exited s')
        | Throw e s' => Some (Threw e s')
        end
      else Some (Exited s)
  end.

(** The statements after a loop that no [try] encloses: they run when the
    loop ends normally. *)
Definition then_ {S A : Type} (r : option (loop_end S)) (k : S -> outcome A)
  : option (outcome A) :=
  match r with
  | Some (Exited s) => Some (k s)
  | Some (Threw e _) => Some (Raises e)
  | None => None
  end.

(** ** Trend series and [calculate_cumulative] (flask_app.py, lines 82-90) *)

(** One record of a daily series, [{"Date": ..., key: ...}]: the date
    string when the record has one, and its other fields, which hold
    integers (the callers ask for "New Users" and "Count"). *)
Record row := mkrow { Date : option string; vals : gmap string Z }.

(** One record of the result, [{'Date': ..., 'Cumulative': ...}]; [None]
    is the NaN a frame holds where a record lacks the column. *)
Record worm_point := mkworm { worm_date : option string; Cumulative : option Z }.

(** [{"Date": d_str, "Count": n}]. *)
Definition count_row (d_str : string) (n : Z) : row :=
  mkrow (Some d_str) {[ "Count"%string := n ]}.

(** Two's complement wrap-around of an int64 column. *)
Definition wrap64 (z : Z) : Z :=
  (z + 2 ^ 63) mod 2 ^ 64 - 2 ^ 63.

(** [key in df_c.columns]: the columns are the keys of all the records. *)
Definition in_columns (key : string) (daily_data : list row) : bool :=
  existsb (fun r => bool_decide (is_Some (vals r !! key))) daily_data.

Definition has_date_column (daily_data : list row) : bool :=
  existsb (fun r => bool_decide (is_Some (Date r))) daily_data.

(** [Series.cumsum()]: NaN cells are skipped and stay NaN. *)
Fixpoint cumsum_from (norm : Z -> Z) (acc : Z) (col : list (option Z))
  : list (option Z) :=
  match col with
  | [] => []
  | Some v :: col' =>
      let acc' := norm (acc + v) in Some acc' :: cumsum_from norm acc' col'
  | None :: col' => None :: cumsum_from norm acc col'
  end.

(** A column without NaN is int64; one with NaN is float64, whose sums of
    integers are modelled exactly. *)
Definition cumsum (col : list (option Z)) : list (option Z) :=
  if forallb (fun c => bool_decide (is_Some c)) col
  then cumsum_from wrap64 0 col
  else cumsum_from (fun z => z) 0 col.

Definition calculate_cumulative (daily_data : list row) (key : string)
  : outcome (list worm_point) :=
  match daily_data with
  | [] => Returns []                                 (* if not daily_data *)
  | _ =>
      if negb (in_columns key daily_data) then Returns []
      else
        let cumulative := cumsum (map (fun r => vals r !! key) daily_data) in
        if has_date_column daily_data
        then Returns (zip_with mkworm (map Date daily_data) cumulative)
        else Raises KeyError                         (* df_c[['Date', ...]] *)
  end.

(** ** The date-range fill (flask_app.py, lines 413-421 and 526-532) *)

Definition _chart_end_date (end_date_obj : date) : date := end_date_obj.

Definition fill_cond (chart_end : date) (s : date * list row) : bool :=
  date_leb (fst s) chart_end.

Definition fill_body (daily_counts : gmap string Z) (s : date * list row)
  : step (date * list row) :=
  let '(curr, sorted_daily) := s in
  let d_str := strftime_ymd curr in
  let sorted_daily :=
    sorted_daily ++ [count_row d_str (default 0 (daily_counts !! d_str))] in
  match next_day curr with                           (* curr += 1 day *)
  | Some curr' => Continue (curr', sorted_daily)
  | None => Throw OverflowError (curr, sorted_daily)
  end.

Definition fill_date_range_loop (fuel : nat) (start_date end_date : date)
  (daily_counts : gmap string Z) : option (loop_end (date * list row)) :=
  let chart_end := _chart_end_date end_date in
  while_loop fuel (fill_cond chart_end) (fill_body daily_counts)
             (start_date, []).

(** The fill on its own: [sorted_daily] when the loop is over. *)
Definition fill_date_range (fuel : nat) (start_date end_date : date)
  (daily_counts : gmap string Z) : option (outcome (list row)) :=
  then_ (fill_date_range_loop fuel start_date end_date daily_counts)
        (fun s => Returns (snd s)).

(** ** Records and responses of the external sources *)

(** A timestamp attribute such as [created_at]: missing or empty, not an
    ISO string, or the instant it denotes. *)
Inductive tfield : Type :=
| Absent
| Garbled
| At (t : Z).

(** A numeric attribute such as [amount]: missing or falsy, not a number,
    or its value. *)
Inductive amount_field : Type :=
| NoAmount
| BadAmount
| Amount (q : Q).

Record customer := mkcustomer {
  customer_id : nat;
  updated_at : tfield;
  created_at : tfield
}.

Record purchase := mkpurchase {
  purchase_id : nat;
  purchase_created_at : tfield;
  amount_in_cents : amount_field
}.

Record product := mkproduct {
  title : option string;
  members_aggregate_count : option Z
}.

Record deal := mkdeal {
  deal_id : nat;
  hubspot_owner_id : option string;
  amount : amount_field;
  closedate : tfield
}.

(** The JSON body of a listing: [data], [links.next] and [meta.total] for
    Kajabi; [results] and [paging.next.after] for HubSpot. [None] is a
    missing or empty link. *)
Record page (R U : Type) := mkpage {
  data : list R;
  next : option U;
  total : Z
}.
Arguments mkpage {R U} data next total.
Arguments data {R U} p.
Arguments next {R U} p.
Arguments total {R U} p.

Inductive response (R U : Type) : Type :=
| NoResponse                               (* the request raised *)
| Resp (status_code : Z) (json : page R U).
Arguments NoResponse {R U}.
Arguments Resp {R U} status_code json.

(** Midnight UTC of a date, in microseconds since 1970-01-01. *)
Definition EPOCH_ORDINAL : Z := 719163.
Definition IST_OFFSET_US : Z := 19800000000.

(** [ist.localize(datetime.combine(d, datetime.min.time()))]. *)
Definition ist_day_start (d : date) : Z :=
  (toordinal d - EPOCH_ORDINAL) * DAY_US - IST_OFFSET_US.

(** [ist.localize(datetime.combine(d, datetime.max.time()))]. *)
Definition ist_day_end (d : date) : Z :=
  ist_day_start d + DAY_US - 1.

(** [t.astimezone(ist).strftime('%Y-%m-%d')]. *)
Definition ist_date_str (t : Z) : outcome string :=
  d ← or_raise OverflowError
        (add_days (mkdate 1970 1 1) ((t + IST_OFFSET_US) / DAY_US));
  mret (strftime_ymd d).

(** [daily_counts[d_str] = daily_counts.get(d_str, 0) + 1]. *)
Definition count_day (daily_counts : gmap string Z) (d_str : string)
  : gmap string Z :=
  <[ d_str := default 0 (daily_counts !! d_str) + 1 ]> daily_counts.

(** The loops that build [daily_counts]: a record without a usable
    timestamp is skipped. *)
Definition daily_counts_of {R : Type} (stamp : R -> tfield) (rs : list R)
  : gmap string Z :=
  fold_left (fun daily_counts r =>
               match stamp r with
               | At t => try_except
                           (d_str ← ist_date_str t;
                            mret (count_day daily_counts d_str))
                           daily_counts
               | _ => daily_counts
               end) rs ∅.

(** ** The Kajabi fetches of flask_app.py *)

Section Kajabi.

Context {U : Type}.

(** The state of a paginated loop: the loop variables, the accumulator
    [acc] and the requests issued so far, oldest first. *)
Record fetch_state (A : Type) := mkfetch {
  next_url : option U;
  page_count : nat;
  acc : A;
  trace : list U
}.
Arguments mkfetch {A} next_url page_count acc trace.
Arguments next_url {A} f.
Arguments page_count {A} f.
Arguments acc {A} f.
Arguments trace {A} f.

(** [while next_url and page_count < 50]. *)
Definition paged_cond {A} (s : fetch_state A) : bool :=
  bool_decide (is_Some (next_url s)) && (page_count s <? 50)%nat.

(** *** [get_kajabi_new_customers] (lines 451-534) *)

(** One turn of [for c in batch]: the stop flag and the kept customers. *)
Definition classify_customer (dt_start_ist dt_end_ist : Z)
  (st : bool * list customer) (c : customer) : bool * list customer :=
  let '(should_stop, all_customers) := st in
  let should_stop :=
    match updated_at c with
    | At u_date => if u_date <? dt_start_ist then true else should_stop
    | _ => should_stop
    end in
  let all_customers :=
    match created_at c with
    | At c_date =>
        if (dt_start_ist <=? c_date) && (c_date <=? dt_end_ist)
        then all_customers ++ [c] else all_customers
    | _ => all_customers
    end in
  (should_stop, all_customers).

Definition scan_customers (dt_start_ist dt_end_ist : Z)
  (batch : list customer) (all_customers : list customer)
  : bool * list customer :=
  fold_left (classify_customer dt_start_ist dt_end_ist)
            batch (false, all_customers).

(** The accumulator is [(total_global, all_customers)]. *)
Definition customers_body (src : U -> response customer U)
  (dt_start_ist dt_end_ist : Z) (s : fetch_state (Z * list customer))
  : step (fetch_state (Z * list customer)) :=
  match next_url s with
  | None => Break s
  | Some u =>
      let s := mkfetch (next_url s) (page_count s) (acc s) (trace s ++ [u]) in
      match src u with
      | NoResponse => Break s                        (* except Exception *)
      | Resp status_code json =>
          if negb (status_code =? 200) then Break s
          else
            let total_global :=
              if (page_count s =? 0)%nat then total json else fst (acc s) in
            let s := mkfetch (next_url s) (page_count s)
                             (total_global, snd (acc s)) (trace s) in
            match data json with
            | [] => Break s                          (* if not batch *)
            | batch =>
                let '(should_stop, all_customers) :=
                  scan_customers dt_start_ist dt_end_ist batch (snd (acc s)) in
                let s := mkfetch (next_url s) (page_count s)
                                 (total_global, all_customers) (trace s) in
                if should_stop then Break s
                else Continue (mkfetch (next json) (S (page_count s))
                                       (acc s) (trace s))
            end
      end
  end.

Definition customers_loop (fuel : nat) (src : U -> response customer U)
  (first : U) (dt_start_ist dt_end_ist : Z)
  : option (loop_end (fetch_state (Z * list customer))) :=
  while_loop fuel paged_cond (customers_body src dt_start_ist dt_end_ist)
             (mkfetch (Some first) 0%nat (0, []) []).

(** Returns [(count, customer_list, total_global, daily_trend)], and the
    requests issued. [first] is the URL of the first page. *)
Definition get_kajabi_new_customers (fuel : nat) (token : option string)
  (src : U -> response customer U) (first : U)
  (target_month_start target_month_end : date)
  : option (outcome (Z * list customer * Z * list row * list U)) :=
  match token with
  | None => Some (Returns (0, [], 0, [], []))
  | Some _ =>
      let dt_start_ist := ist_day_start target_month_start in
      let dt_end_ist := ist_day_end target_month_end in
      match customers_loop fuel src first dt_start_ist dt_end_ist with
      | None => None
      | Some (Threw e _) => Some (Raises e)
      | Some (Exited s) =>
          let all_customers := snd (acc s) in
          let daily_counts := daily_counts_of created_at all_customers in
          then_ (fill_date_range_loop fuel target_month_start
                                      target_month_end daily_counts)
                (fun f =>
                   Returns (Z.of_nat (length all_customers), all_customers,
                            fst (acc s), snd f, trace s))
      end
  end.

(** *** [get_kajabi_sales] (lines 537-590) *)

(** One turn of [for p in batch]: the stop flag, the revenue and the kept
    purchases. *)
Definition classify_purchase (dt_start_ist dt_end_ist : Z)
  (st : bool * (Q * list purchase)) (p : purchase)
  : bool * (Q * list purchase) :=
  let '(should_stop, (revenue, filtered)) := st in
  match purchase_created_at p with
  | At p_date =>
      if p_date <? dt_start_ist
      then (true, (revenue, filtered))               (* continue *)
      else if (dt_start_ist <=? p_date) && (p_date <=? dt_end_ist)
      then match amount_in_cents p with
           | Amount cents =>
               (should_stop, (revenue + cents / 100, filtered ++ [p]))%Q
           | NoAmount =>
               (should_stop, (revenue + 0 / 100, filtered ++ [p]))%Q
           | BadAmount => (should_stop, (revenue, filtered))
           end
      else (should_stop, (revenue, filtered))
  | _ => (should_stop, (revenue, filtered))
  end.

Definition scan_purchases (dt_start_ist dt_end_ist : Z)
  (batch : list purchase) (revenue : Q) (filtered : list purchase)
  : bool * (Q * list purchase) :=
  fold_left (classify_purchase dt_start_ist dt_end_ist)
            batch (false, (revenue, filtered)).

(** The accumulator is [(revenue, filtered)]. *)
Definition sales_body (src : U -> response purchase U)
  (dt_start_ist dt_end_ist : Z) (s : fetch_state (Q * list purchase))
  : step (fetch_state (Q * list purchase)) :=
  match next_url s with
  | None => Break s
  | Some u =>
      let s := mkfetch (next_url s) (page_count s) (acc s) (trace s ++ [u]) in
      match src u with
      | NoResponse => Break s                        (* except Exception *)
      | Resp status_code json =>
          if negb (status_code =? 200) then Break s
          else
            match data json with
            | [] => Break s                          (* if not batch *)
            | batch =>
                let '(should_stop, acc') :=
                  scan_purchases dt_start_ist dt_end_ist batch
                                 (fst (acc s)) (snd (acc s)) in
                let s := mkfetch (next_url s) (page_count s) acc' (trace s) in
                if should_stop then Break s
                else Continue (mkfetch (next json) (S (page_count s))
                                       (acc s) (trace s))
            end
      end
  end.

Definition sales_loop (fuel : nat) (src : U -> response purchase U)
  (first : U) (dt_start_ist dt_end_ist : Z)
  : option (loop_end (fetch_state (Q * list purchase))) :=
  while_loop fuel paged_cond (sales_body src dt_start_ist dt_end_ist)
             (mkfetch (Some first) 0%nat (0%Q, []) []).


(** *** [get_kajabi_products] (lines 593-618) *)

(** [{"Name": ..., "Members": ...}]. *)
Record product_row := mkproduct_row { Name : string; Members : Z }.

Definition product_row_of (prod : product) : product_row :=
  mkproduct_row (default "Unknown"%string (title prod))
                (default 0 (members_aggregate_count prod)).

(** [while next_url]: the loop has no page counter, and the [try] is
    around the whole loop. *)
Definition products_cond (s : fetch_state (list product_row)) : bool :=
  bool_decide (is_Some (next_url s)).

Definition products_body (src : U -> response product U)
  (s : fetch_state (list product_row)) : step (fetch_state (list product_row)) :=
  match next_url s with
  | None => Break s
  | Some u =>
      let s := mkfetch (next_url s) (page_count s) (acc s) (trace s ++ [u]) in
      match src u with
      | NoResponse => Throw RequestException s
      | Resp status_code json =>
          if negb (status_code =? 200) then Break s
          else Continue (mkfetch (next json) (page_count s)
                                 (acc s ++ map product_row_of (data json))
                                 (trace s))
      end
  end.

(** Returns the product list, and the requests issued. *)
Definition get_kajabi_products (fuel : nat) (token : option string)
  (src : U -> response product U) (first : U)
  : option (list product_row * list U) :=
  match token with
  | None => Some ([], [])
  | Some _ =>
      match while_loop fuel products_cond (products_body src)
                       (mkfetch (Some first) 0%nat [] []) with
      | None => None
      | Some (Exited s) => Some (acc s, trace s)
      | Some (Threw _ s) => Some ([], trace s)       (* except: return [] *)
      end
  end.

End Kajabi.

Arguments fetch_state U A : clear implicits.
Arguments mkfetch {U A} next_url page_count acc trace.
Arguments next_url {U A} f.
Arguments page_count {U A} f.
Arguments acc {U A} f.
Arguments trace {U A} f.

(** ** The HubSpot deal fetch *)

Definition EXCLUDED_OWNERS : list string :=
  ["Mahalekshmi M J"; "Sreeja Anoop"; "arya.krishnan"; "Devi Krishna"]%string.

Section HubSpot.

Context {C : Type}.

(** The loop variables of the deal search, and the [after] cursor of each
    request issued so far, oldest first. *)
Record search_state := mksearch {
  after : option C;
  all_results : list deal;
  requests : list (option C)
}.

(** [owner_map.get(o_id, "") in EXCLUDED_OWNERS]; a deal without an owner
    id looks up [None], which is no key of the map. *)
Definition excluded_owner (owner_map : gmap string string) (r : deal) : bool :=
  let o_name := match hubspot_owner_id r with
                | Some o_id => default ""%string (owner_map !! o_id)
                | None => ""%string
                end in
  bool_decide (o_name ∈ EXCLUDED_OWNERS).

(** The [for r in results] loop of flask_app.py. *)
Definition keep_deals (owner_map : gmap string string) (results : list deal)
  (all_results : list deal) : list deal :=
  fold_left (fun all_results r =>
               if excluded_owner owner_map r then all_results   (* continue *)
               else all_results ++ [r])
            results all_results.

(** The body of [while True] (flask_app.py, lines 348-383). *)
Definition deals_body (src : option C -> response deal C)
  (owner_map : gmap string string) (s : search_state) : step search_state :=
  let s := mksearch (after s) (all_results s) (requests s ++ [after s]) in
  match src (after s) with
  | NoResponse => Break s                            (* except Exception *)
  | Resp status_code json =>
      if status_code =? 200 then
        let all_results := keep_deals owner_map (data json) (all_results s) in
        let s := mksearch (next json) all_results (requests s) in
        match after s with
        | None => Break s                            (* if not after *)
        | Some _ => Continue s
        end
      else Break s
  end.

Definition deals_loop (fuel : nat) (src : option C -> response deal C)
  (owner_map : gmap string string) : option (loop_end search_state) :=
  while_loop fuel (fun _ => true) (deals_body src owner_map)
             (mksearch None [] []).

(** "Robust summing logic". *)
Definition sum_amounts (all_results : list deal) : Q :=
  fold_left (fun total_val r =>
               match amount r with
               | Amount a => (total_val + a)%Q
               | _ => total_val
               end) all_results 0%Q.

(** [get_hubspot_deals] of flask_app.py (lines 318-422): returns
    [(count, total_revenue, daily_trend)], and the requests issued.
    [owner_map] is what [fetch_hubspot_owners] returned. *)
Definition get_hubspot_deals (fuel : nat) (token : option string)
  (owner_map : gmap string string) (src : option C -> response deal C)
  (target_month_start target_month_end : date)
  : option (outcome (Z * Q * list row * list (option C))) :=
  match token with
  | None => Some (Returns (0, 0%Q, [], []))
  | Some _ =>
      match deals_loop fuel src owner_map with
      | None => None
      | Some (Threw e _) => Some (Raises e)
      | Some (Exited s) =>
          let all_results := all_results s in
          let total_val := sum_amounts all_results in
          let daily_counts := daily_counts_of closedate all_results in
          then_ (fill_date_range_loop fuel target_month_start
                                      target_month_end daily_counts)
                (fun f =>
                   Returns (Z.of_nat (length all_results), total_val,
                            snd f, requests s))
      end
  end.

End HubSpot.

Module Streamlit.

Section HubSpot.

Context {C : Type}.

(** The body of [while True] (streamlit_app.py, lines 427-466):
    [all_results.extend(results)], whoever owns the deals. *)
Definition deals_body (src : option C -> response deal C)
  (s : @search_state C) : step (@search_state C) :=
  let s := mksearch (after s) (all_results s) (requests s ++ [after s]) in
  match src (after s) with
  | NoResponse => Break s
  | Resp status_code json =>
      if status_code =? 200 then
        let s := mksearch (after s) (all_results s ++ data json) (requests s) in
        match next json with
        | Some a => Continue (mksearch (Some a) (all_results s) (requests s))
        | None => Break s
        end
      else Break s
  end.

Definition deals_loop (fuel : nat) (src : option C -> response deal C)
  : option (loop_end (@search_state C)) :=
  while_loop fuel (fun _ => true) (deals_body src) (mksearch None [] []).

(** [sum([float(r['properties']['amount'] or 0) for r in all_results])]. *)
Fixpoint sum_amounts (all_results : list deal) : outcome Q :=
  match all_results with
  | [] => Returns 0%Q
  | r :: rest =>
      a ← match amount r with
          | Amount a => Returns a
          | NoAmount => Returns 0%Q
          | BadAmount => Raises ValueError
          end;
      total ← sum_amounts rest;
      mret (a + total)%Q
  end.

(** [get_hubspot_deals] of streamlit_app.py (lines 399-470): returns
    [(count, total_val, all_results)], and the requests issued. *)
Definition get_hubspot_deals (fuel : nat)
  (src : option C -> response deal C)
  : option (outcome (Z * Q * list deal * list (option C))) :=
  then_ (deals_loop fuel src)
        (fun s =>
           total_val ← sum_amounts (all_results s);
           mret (Z.of_nat (length (all_results s)), total_val,
                 all_results s, requests s)).

End HubSpot.

End Streamlit.

(** ** Percentage deltas of the panels *)

Definition Qpositive (q : Q) : bool := negb (Qle_bool q 0).

(** [api_discover] (lines 792-793): the two values are integers. *)
Definition api_discover_pct (m1_val m2_val : Z) : Q :=
  let delta := m1_val - m2_val in
  if 0 <? m2_val then (inject_Z delta / inject_Z m2_val * 100)%Q else 0%Q.

(** [api_buy] (lines 822-824): counts and revenue totals. *)
Definition api_buy_deltas (m1_count m2_count : Z) (m1_val m2_val : Q)
  : Z * Q * Q :=
  let delta_count := m1_count - m2_count in
  let delta_val := (m1_val - m2_val)%Q in
  let pct_val :=
    if Qpositive m2_val then (delta_val / m2_val * 100)%Q else 0%Q in
  (delta_count, delta_val, pct_val).

Definition api_buy_pct (m1_val m2_val : Q) : Q :=
  snd (api_buy_deltas 0 0 m1_val m2_val).

(** ** Sources for examples: a list of pages served in order *)

(** The cursor of a page is its index; the last page has no next link. *)
Definition serve_from {R : Type} (pages : list (list R)) (i : nat)
  : response R nat :=
  match pages !! i with
  | Some batch =>
      Resp 200 (mkpage batch
                       (if (S i <? length pages)%nat then Some (S i) else None)
                       (Z.of_nat (length pages)))
  | None => NoResponse
  end.

(** A search endpoint: no cursor asks for the first page. *)
Definition serve_search {R : Type} (pages : list (list R)) (a : option nat)
  : response R nat :=
  match a with
  | None => serve_from pages 0
  | Some i => serve_from pages i
  end.



(** A source that always has a next page. *)
Definition serve_forever {R : Type} (batch : list R) (i : nat)
  : response R nat :=
  Resp 200 (mkpage batch (Some (S i)) 0).

(* ================================================================== *)
(** * Part II: properties *)
(* ================================================================== *)

(** ** Loops *)

Lemma while_loop_unfold {S : Type} fuel cond body (s : S) :
  while_loop (Datatypes.S fuel) cond body s
  = if cond s then
      match body s with
      | Continue s' => while_loop fuel cond body s'
      | Break s' => Some (Exited s')
      | Throw e s' => Some (Threw e s')
      end
    else Some (Exited s).
Proof. reflexivity. Qed.

(** ** Calendar arithmetic *)

Definition MAXORDINAL : Z := 3652059.

Lemma valid_date_iff d :
  valid_date d <->
  1 <= year d <= 9999 /\ 1 <= month d <= 12 /\
  1 <= day d <= days_in_month (year d) (month d).
Proof.
  unfold valid_date, valid_dateb, MINYEAR, MAXYEAR.
  rewrite !andb_true_iff, !Z.leb_le. lia.
Qed.

Lemma days_in_month_bounds y m : 28 <= days_in_month y m <= 31.
Proof.
  unfold days_in_month.
  destruct (m =? 2); [destruct (is_leap y); lia|].
  destruct ((m =? 4) || (m =? 6) || (m =? 9) || (m =? 11)); lia.
Qed.

Lemma is_leap_spec y :
  is_leap y = true <-> (y mod 4 = 0 /\ (y mod 100 <> 0 \/ y mod 400 = 0)).
Proof.
  unfold is_leap.
  rewrite andb_true_iff, orb_true_iff, negb_true_iff, !Z.eqb_eq, Z.eqb_neq.
  tauto.
Qed.

Lemma days_before_year_succ y :
  days_before_year (y + 1) =
  days_before_year y + 365 + (if is_leap y then 1 else 0).
Proof.
  unfold days_before_year.
  replace (y + 1 - 1) with y by lia.
  destruct (is_leap y) eqn:L.
  - apply is_leap_spec in L. Z.div_mod_to_equations. lia.
  - assert (~ (y mod 4 = 0 /\ (y mod 100 <> 0 \/ y mod 400 = 0)))
      by (rewrite <- is_leap_spec; congruence).
    Z.div_mod_to_equations. lia.
Qed.

Lemma month_cases m :
  1 <= m <= 12 ->
  m = 1 \/ m = 2 \/ m = 3 \/ m = 4 \/ m = 5 \/ m = 6 \/
  m = 7 \/ m = 8 \/ m = 9 \/ m = 10 \/ m = 11 \/ m = 12.
Proof. lia. Qed.

Ltac each_month m :=
  let H := fresh in
  match goal with
  | Hm : 1 <= m <= _ |- _ =>
      assert (H : 1 <= m <= 12) by lia;
      apply month_cases in H;
      repeat (destruct H as [H | H]); subst m
  end.

Lemma days_before_month_succ y m :
  1 <= m <= 11 ->
  days_before_month y (m + 1) = days_before_month y m + days_in_month y m.
Proof.
  intros Hm. each_month m; unfold days_before_month, days_in_month; simpl;
    destruct (is_leap y); lia.
Qed.

Lemma days_before_month_dec y :
  days_before_month y 12 + 31 = 365 + (if is_leap y then 1 else 0).
Proof. unfold days_before_month. destruct (is_leap y); lia. Qed.

Lemma days_before_month_bounds y m :
  1 <= m <= 12 ->
  0 <= days_before_month y m /\
  days_before_month y m + days_in_month y m
    <= 365 + (if is_leap y then 1 else 0).
Proof.
  intros Hm. each_month m; unfold days_before_month, days_in_month; simpl;
    destruct (is_leap y); lia.
Qed.

Lemma days_before_year_mono y1 y2 :
  y1 < y2 -> days_before_year y1 + 365 <= days_before_year y2.
Proof.
  unfold days_before_year. intros H. Z.div_mod_to_equations. lia.
Qed.

Lemma next_day_spec d d' :
  valid_date d -> next_day d = Some d' ->
  valid_date d' /\ toordinal d' = toordinal d + 1.
Proof.
  rewrite !valid_date_iff. intros (Hy & Hm & Hd). unfold next_day, MAXYEAR.
  destruct (Z.ltb_spec (day d) (days_in_month (year d) (month d))).
  { intros [= <-]. unfold toordinal; simpl. lia. }
  destruct (Z.ltb_spec (month d) 12).
  { intros [= <-]. unfold toordinal; simpl.
    pose proof (days_in_month_bounds (year d) (month d + 1)).
    rewrite days_before_month_succ by lia. lia. }
  destruct (Z.ltb_spec (year d) 9999); [|discriminate].
  intros [= <-]. unfold toordinal; simpl.
  pose proof (days_before_month_dec (year d)).
  rewrite days_before_year_succ.
  replace (month d) with 12 in * by lia.
  replace (days_in_month (year d) 12) with 31 in * by reflexivity.
  change (days_in_month (year d + 1) 1) with 31.
  change (days_before_month (year d + 1) 1) with 0.
  lia.
Qed.

Lemma prev_day_spec d d' :
  valid_date d -> prev_day d = Some d' ->
  valid_date d' /\ toordinal d' = toordinal d - 1.
Proof.
  rewrite !valid_date_iff. intros (Hy & Hm & Hd). unfold prev_day, MINYEAR.
  destruct (Z.ltb_spec 1 (day d)).
  { intros [= <-]. unfold toordinal; simpl. lia. }
  destruct (Z.ltb_spec 1 (month d)).
  { intros [= <-]. unfold toordinal; simpl.
    pose proof (days_in_month_bounds (year d) (month d - 1)).
    pose proof (days_before_month_succ (year d) (month d - 1)).
    replace (month d - 1 + 1) with (month d) in * by lia. lia. }
  destruct (Z.ltb_spec 1 (year d)); [|discriminate].
  intros [= <-]. unfold toordinal; simpl.
  pose proof (days_before_month_dec (year d - 1)).
  pose proof (days_before_year_succ (year d - 1)).
  replace (year d - 1 + 1) with (year d) in * by lia.
  replace (month d) with 1 in * by lia.
  change (days_in_month (year d - 1) 12) with 31.
  change (days_before_month (year d) 1) with 0.
  lia.
Qed.

Lemma toordinal_bounds d :
  valid_date d -> 1 <= toordinal d <= MAXORDINAL.
Proof.
  rewrite valid_date_iff. intros (Hy & Hm & Hd). unfold toordinal, MAXORDINAL.
  pose proof (days_before_month_bounds (year d) (month d) Hm).
  assert (0 <= days_before_year (year d))
    by (unfold days_before_year; Z.div_mod_to_equations; lia).
  split; [lia|].
  pose proof (days_before_year_succ (year d)).
  assert (days_before_year (year d + 1) <= 3652059).
  { destruct (Z.eq_dec (year d) 9999) as [->|].
    - vm_compute. discriminate.
    - pose proof (days_before_year_mono (year d + 1) 10000).
      change (days_before_year 10000) with 3652059 in *. lia. }
  lia.
Qed.

Lemma next_day_None d :
  valid_date d -> next_day d = None -> toordinal d = MAXORDINAL.
Proof.
  rewrite valid_date_iff. intros (Hy & Hm & Hd). unfold next_day, MAXYEAR.
  destruct (Z.ltb_spec (day d) (days_in_month (year d) (month d)));
    [discriminate|].
  destruct (Z.ltb_spec (month d) 12); [discriminate|].
  destruct (Z.ltb_spec (year d) 9999); [discriminate|]. intros _.
  unfold toordinal.
  replace (year d) with 9999 in * by lia.
  replace (month d) with 12 in * by lia.
  change (days_in_month 9999 12) with 31 in *.
  replace (day d) with 31 by lia. reflexivity.
Qed.

Lemma prev_day_None d :
  valid_date d -> prev_day d = None -> toordinal d = 1.
Proof.
  rewrite valid_date_iff. intros (Hy & Hm & Hd). unfold prev_day, MINYEAR.
  destruct (Z.ltb_spec 1 (day d)); [discriminate|].
  destruct (Z.ltb_spec 1 (month d)); [discriminate|].
  destruct (Z.ltb_spec 1 (year d)); [discriminate|]. intros _.
  unfold toordinal.
  replace (year d) with 1 in * by lia.
  replace (month d) with 1 in * by lia.
  replace (day d) with 1 by lia. reflexivity.
Qed.

Lemma iter_next_day_spec n d d' :
  valid_date d -> iter_days next_day n d = Some d' ->
  valid_date d' /\ toordinal d' = toordinal d + Z.of_nat n.
Proof.
  revert d. induction n as [|n IH]; intros d Hv; simpl.
  - intros [= <-]. split; [assumption | lia].
  - destruct (next_day d) as [e|] eqn:E; [|discriminate]. intros H.
    destruct (next_day_spec _ _ Hv E) as [He Ho].
    destruct (IH _ He H) as [? ?]. split; [assumption | lia].
Qed.

Lemma iter_prev_day_spec n d d' :
  valid_date d -> iter_days prev_day n d = Some d' ->
  valid_date d' /\ toordinal d' = toordinal d - Z.of_nat n.
Proof.
  revert d. induction n as [|n IH]; intros d Hv; simpl.
  - intros [= <-]. split; [assumption | lia].
  - destruct (prev_day d) as [e|] eqn:E; [|discriminate]. intros H.
    destruct (prev_day_spec _ _ Hv E) as [He Ho].
    destruct (IH _ He H) as [? ?]. split; [assumption | lia].
Qed.

Lemma iter_next_day_total n d :
  valid_date d -> toordinal d + Z.of_nat n <= MAXORDINAL ->
  exists d', iter_days next_day n d = Some d'.
Proof.
  revert d. induction n as [|n IH]; intros d Hv Hn; simpl; [eauto|].
  destruct (next_day d) as [e|] eqn:E.
  - destruct (next_day_spec _ _ Hv E) as [He Ho]. apply IH; [assumption | lia].
  - apply next_day_None in E; [lia | assumption].
Qed.

Lemma iter_prev_day_total n d :
  valid_date d -> 1 <= toordinal d - Z.of_nat n ->
  exists d', iter_days prev_day n d = Some d'.
Proof.
  revert d. induction n as [|n IH]; intros d Hv Hn; simpl; [eauto|].
  destruct (prev_day d) as [e|] eqn:E.
  - destruct (prev_day_spec _ _ Hv E) as [He Ho]. apply IH; [assumption | lia].
  - apply prev_day_None in E; [lia | assumption].
Qed.

(** Adding days moves the ordinal by that many days, and succeeds exactly
    when the result is a date [datetime] can represent. *)
Lemma add_days_spec d n d' :
  valid_date d -> add_days d n = Some d' ->
  valid_date d' /\ toordinal d' = toordinal d + n.
Proof.
  intros Hv. unfold add_days. destruct (Z.leb_spec 0 n) as [Hn|Hn]; intros E.
  - apply iter_next_day_spec in E; [|assumption].
    destruct E; split; [assumption | lia].
  - apply iter_prev_day_spec in E; [|assumption].
    destruct E; split; [assumption | lia].
Qed.

Lemma add_days_total d n :
  valid_date d -> 1 <= toordinal d + n <= MAXORDINAL ->
  exists d', add_days d n = Some d'.
Proof.
  intros Hv Hn. unfold add_days. destruct (Z.leb_spec 0 n).
  - apply iter_next_day_total; [assumption | lia].
  - apply iter_prev_day_total; [assumption | lia].
Qed.

Lemma add_days_overflow d n :
  valid_date d -> ~ (1 <= toordinal d + n <= MAXORDINAL) ->
  add_days d n = None.
Proof.
  intros Hv Hn. destruct (add_days d n) as [d'|] eqn:E; [|reflexivity].
  destruct (add_days_spec _ _ _ Hv E) as [Hv' Ho].
  apply toordinal_bounds in Hv'. lia.
Qed.

(** The order on the triples is the order of the days. *)
Lemma date_ltb_ordinal a b :
  valid_date a -> valid_date b ->
  date_ltb a b = true <-> toordinal a < toordinal b.
Proof.
  rewrite !valid_date_iff. intros (Hya & Hma & Hda) (Hyb & Hmb & Hdb).
  unfold date_ltb, toordinal.
  rewrite !orb_true_iff, !andb_true_iff, !Z.ltb_lt, !Z.eqb_eq.
  pose proof (days_before_month_bounds (year a) (month a) Hma).
  pose proof (days_before_month_bounds (year b) (month b) Hmb).
  assert (Hm : forall y m1 m2, 1 <= m1 -> m1 < m2 -> m2 <= 12 ->
             days_before_month y m1 + days_in_month y m1
             <= days_before_month y m2).
  { intros y m1 m2 H1 H2 H3.
    assert (Hc1 : 1 <= m1 <= 12) by lia. assert (Hc2 : 1 <= m2 <= 12) by lia.
    apply month_cases in Hc1, Hc2.
    unfold days_before_month, days_in_month.
    destruct (is_leap y);
      repeat (destruct Hc1 as [Hc1|Hc1]); subst m1;
      repeat (destruct Hc2 as [Hc2|Hc2]); subst m2; simpl; lia. }
  destruct (Z.lt_trichotomy (year a) (year b)) as [Hy | [Hy | Hy]].
  - pose proof (days_before_year_mono _ _ Hy).
    pose proof (days_before_year_succ (year a)).
    assert (days_before_year (year a + 1) <= days_before_year (year b)).
    { destruct (Z.eq_dec (year a + 1) (year b)) as [->|]; [lia|].
      pose proof (days_before_year_mono (year a + 1) (year b)). lia. }
    lia.
  - rewrite Hy in *.
    destruct (Z.lt_trichotomy (month a) (month b)) as [Hm' | [Hm' | Hm']].
    + pose proof (Hm (year b) (month a) (month b)). lia.
    + rewrite Hm' in *. lia.
    + pose proof (Hm (year b) (month b) (month a)). lia.
  - pose proof (days_before_year_mono _ _ Hy).
    pose proof (days_before_year_succ (year b)).
    assert (days_before_year (year b + 1) <= days_before_year (year a)).
    { destruct (Z.eq_dec (year b + 1) (year a)) as [->|]; [lia|].
      pose proof (days_before_year_mono (year b + 1) (year a)). lia. }
    lia.
Qed.

Lemma date_eqb_eq a b : date_eqb a b = true <-> a = b.
Proof.
  unfold date_eqb. rewrite !andb_true_iff, !Z.eqb_eq.
  destruct a, b; simpl. split; [intros [[-> ->] ->]; reflexivity|].
  intros [= -> -> ->]. auto.
Qed.

Lemma toordinal_inj a b :
  valid_date a -> valid_date b -> toordinal a = toordinal b -> a = b.
Proof.
  intros Ha Hb Ho.
  pose proof (date_ltb_ordinal a b Ha Hb) as H1.
  pose proof (date_ltb_ordinal b a Hb Ha) as H2.
  destruct (date_ltb a b) eqn:E1; [lia|].
  destruct (date_ltb b a) eqn:E2; [lia|].
  unfold date_ltb in E1, E2.
  rewrite !orb_false_iff, !andb_false_iff, !orb_false_iff, !andb_false_iff,
    !Z.ltb_ge, !Z.eqb_neq in E1, E2.
  destruct a, b; simpl in *. f_equal; lia.
Qed.

Lemma date_leb_ordinal a b :
  valid_date a -> valid_date b ->
  date_leb a b = true <-> toordinal a <= toordinal b.
Proof.
  intros Ha Hb. unfold date_leb.
  rewrite orb_true_iff, date_ltb_ordinal, date_eqb_eq by assumption.
  split.
  - intros [? | ->]; lia.
  - intros H. destruct (Z.eq_dec (toordinal a) (toordinal b)) as [E|];
      [right; apply toordinal_inj; assumption | left; lia].
Qed.

(** ** The window calculator *)

Lemma plus_days_spec t n t' :
  valid_datetime t -> plus_days t n = Returns t' ->
  valid_datetime t' /\ dt_us t' = dt_us t /\
  toordinal (dt_date t') = toordinal (dt_date t) + n.
Proof.
  intros [Hd Hu]. unfold plus_days.
  destruct (add_days (dt_date t) n) as [d|] eqn:E; simpl; [|discriminate].
  intros [= <-]. simpl.
  destruct (add_days_spec _ _ _ Hd E) as [Hv Ho].
  split; [split; assumption | split; [reflexivity | exact Ho]].
Qed.

Lemma plus_days_minus_one t :
  plus_days t (-1) = d ← or_raise OverflowError (prev_day (dt_date t));
                     mret (mkdatetime d (dt_us t)).
Proof.
  unfold plus_days, add_days. simpl. destruct (prev_day (dt_date t)); reflexivity.
Qed.

Lemma replace_ymd_inv t y m d t' :
  replace_ymd t y m d = Returns t' ->
  t' = mkdatetime (mkdate y m d) (dt_us t) /\ valid_date (mkdate y m d).
Proof.
  unfold replace_ymd, valid_date.
  destruct (valid_dateb (mkdate y m d)); [|discriminate].
  intros [= <-]. auto.
Qed.

Lemma valid_first_of_month d :
  valid_date d -> valid_date (mkdate (year d) (month d) 1).
Proof.
  rewrite !valid_date_iff. simpl.
  pose proof (days_in_month_bounds (year d) (month d)). lia.
Qed.

Lemma datetime_ltb_same_us a b us :
  datetime_ltb (mkdatetime a us) (mkdatetime b us) = date_ltb a b.
Proof.
  unfold datetime_ltb. simpl. rewrite Z.ltb_irrefl, andb_false_r, orb_false_r.
  reflexivity.
Qed.

(** The last day of the month the calculator steps back to. *)
Definition end_of_month (y m : Z) : date := mkdate y m (days_in_month y m).

Definition same_month (a b : date) : bool :=
  (year a =? year b) && (month a =? month b).

(** What a call that returns has computed, stage by stage. *)
Lemma get_comparison_dates_inv now1 now2 k c :
  valid_datetime now1 -> valid_datetime now2 ->
  get_comparison_dates now1 now2 k = Returns c ->
  let b := dt_date (base_date c) in
  exists L : date,
    valid_datetime (base_date c) /\
    dt_us (base_date c) = dt_us now1 /\
    toordinal b = toordinal (dt_date now1) - (if 0 <? k then 30 * k else 0) /\
    month1_start c = mkdate (year b) (month b) 1 /\
    month1_end c = (if same_month b (dt_date now2) then dt_date now2
                    else end_of_month (year b) (month b)) /\
    prev_day (mkdate (year b) (month b) 1) = Some L /\
    month2_start c = mkdate (year L) (month L) 1 /\
    month2_end c =
      match add_days (mkdate (year L) (month L) 1)
              (minus_days
                 (mkdatetime (month1_end c)
                    (if same_month b (dt_date now2) then dt_us now2
                     else dt_us now1))
                 (mkdatetime (month1_start c) (dt_us now1))) with
      | Some e => if date_ltb L e then L else e
      | None => L
      end.
Proof.
  intros Hn1 Hn2. unfold get_comparison_dates.
  destruct (if 0 <? k then plus_days now1 (- (30 * k)) else Returns now1)
    as [base|] eqn:Eb; simpl; [|discriminate].
  assert (Hb : valid_datetime base /\ dt_us base = dt_us now1 /\
               toordinal (dt_date base) =
               toordinal (dt_date now1) - (if 0 <? k then 30 * k else 0)).
  { destruct (0 <? k).
    - apply plus_days_spec in Eb; [|assumption].
      destruct Eb as (Hv & ? & ?). split; [exact Hv | split; [assumption | lia]].
    - injection Eb as <-. split; [exact Hn1 | split; [reflexivity | lia]]. }
  destruct Hb as (Hb & Hbus & Hbo).
  destruct (replace_ymd base (year (dt_date base)) (month (dt_date base)) 1)
    as [m1s|] eqn:E1; simpl; [|discriminate].
  apply replace_ymd_inv in E1. destruct E1 as [-> Hv1].
  fold (same_month (dt_date base) (dt_date now2)).
  set (b := dt_date base) in *.
  assert (Hvb : 1 <= year b <= 9999 /\ 1 <= month b <= 12).
  { destruct Hb as [Hb _]. apply valid_date_iff in Hb. fold b in Hb. lia. }
  lazymatch goal with
  | |- mbind _ ?m = _ -> _ =>
      assert (Hend : forall m1e, m = Returns m1e ->
                m1e = if same_month b (dt_date now2) then now2
                      else mkdatetime (end_of_month (year b) (month b))
                                      (dt_us base));
        [| destruct m as [m1e|] eqn:E2; simpl; [|discriminate] ]
  end.
  { intros m1e. destruct (same_month b (dt_date now2)); [congruence|].
    destruct (Z.eqb_spec (month b) 12) as [E12|E12].
    - destruct (replace_ymd base (year b + 1) 1 1) as [nm|] eqn:En; simpl;
        [|discriminate].
      apply replace_ymd_inv in En. destruct En as [-> Hvn].
      rewrite plus_days_minus_one. simpl.
      apply valid_date_iff in Hvn. simpl in Hvn.
      unfold prev_day, MINYEAR. simpl.
      destruct (Z.ltb_spec 1 (year b + 1)); [|lia].
      replace (year b + 1 - 1) with (year b) by lia. simpl.
      intros [= <-]. unfold end_of_month. rewrite E12. reflexivity.
    - destruct (replace_ymd base (year b) (month b + 1) 1) as [nm|] eqn:En;
        simpl; [|discriminate].
      apply replace_ymd_inv in En. destruct En as [-> Hvn].
      rewrite plus_days_minus_one. simpl.
      unfold prev_day. simpl.
      destruct (Z.ltb_spec 1 (month b + 1)); [|lia].
      replace (month b + 1 - 1) with (month b) by lia. simpl.
      intros [= <-]. reflexivity. }
  specialize (Hend _ eq_refl). subst m1e. clear E2.
  rewrite plus_days_minus_one. simpl.
  destruct (prev_day (mkdate (year b) (month b) 1)) as [L|] eqn:EL; simpl;
    [|discriminate].
  destruct (replace_ymd (mkdatetime L (dt_us base)) (year L) (month L) 1)
    as [m2s|] eqn:E3; simpl; [|discriminate].
  apply replace_ymd_inv in E3. destruct E3 as [-> Hv3]. simpl.
  intros [= <-]. simpl. exists L.
  refine (conj Hb (conj Hbus (conj Hbo (conj eq_refl
            (conj _ (conj EL (conj eq_refl _))))))).
  - fold b. destruct (same_month b (dt_date now2)); reflexivity.
  - fold b. rewrite <- Hbus.
    assert (Hm : forall t : datetime,
               mkdatetime (dt_date t) (dt_us t) = t) by (intros []; reflexivity).
    destruct (same_month b (dt_date now2)); simpl; rewrite ?Hm;
      unfold plus_days; simpl;
      (destruct (add_days (mkdate (year L) (month L) 1) _) as [e|]; simpl;
       [|reflexivity]);
      rewrite datetime_ltb_same_us; destruct (date_ltb L e); reflexivity.
Qed.

Lemma minus_days_spec a b :
  0 <= dt_us a < DAY_US -> 0 <= dt_us b < DAY_US ->
  minus_days a b =
  toordinal (dt_date a) - toordinal (dt_date b)
  - (if dt_us a <? dt_us b then 1 else 0).
Proof.
  intros Ha Hb. unfold minus_days.
  set (n := toordinal (dt_date a) - toordinal (dt_date b)).
  unfold DAY_US in *.
  destruct (Z.ltb_spec (dt_us a) (dt_us b)).
  - symmetry. apply (Z.div_unique _ _ _ (86400000000 + (dt_us a - dt_us b))); lia.
  - symmetry. apply (Z.div_unique _ _ _ (dt_us a - dt_us b)); lia.
Qed.

Lemma prev_day_first_of_month y m L :
  valid_date (mkdate y m 1) -> prev_day (mkdate y m 1) = Some L ->
  valid_date L /\ toordinal L = toordinal (mkdate y m 1) - 1 /\
  day L = days_in_month (year L) (month L) /\
  valid_date (mkdate (year L) (month L) 1) /\
  toordinal (mkdate (year L) (month L) 1) = toordinal L - (day L - 1).
Proof.
  intros Hv E. destruct (prev_day_spec _ _ Hv E) as [HL Ho].
  split; [assumption|]. split; [assumption|].
  split.
  - revert E. unfold prev_day; simpl.
    destruct (1 <? m); [intros [= <-]; reflexivity|].
    destruct (MINYEAR <? y); [intros [= <-]; reflexivity | discriminate].
  - split; [apply valid_first_of_month; assumption|].
    unfold toordinal; simpl. lia.
Qed.

Lemma same_month_true a b :
  same_month a b = true <-> year a = year b /\ month a = month b.
Proof. unfold same_month. rewrite andb_true_iff, !Z.eqb_eq. tauto. Qed.

Lemma toordinal_end_of_month y m :
  toordinal (end_of_month y m) = toordinal (mkdate y m 1) + days_in_month y m - 1.
Proof. unfold toordinal, end_of_month; simpl. lia. Qed.

(** The ordinals of the four dates of a returned pair, when the second
    clock reading is not earlier in its day than the first. *)
Lemma get_comparison_dates_ordinals now1 now2 k c :
  valid_datetime now1 -> valid_datetime now2 ->
  get_comparison_dates now1 now2 k = Returns c ->
  exists (L : date) (days_passed : Z),
    prev_day (month1_start c) = Some L /\
    valid_date L /\
    month2_start c = mkdate (year L) (month L) 1 /\
    toordinal L = toordinal (month1_start c) - 1 /\
    toordinal (month2_start c) = toordinal L - (day L - 1) /\
    day L = days_in_month (year L) (month L) /\
    1 <= toordinal (month1_end c) - toordinal (month1_start c) + 1 <= 31 /\
    days_passed =
      toordinal (month1_end c) - toordinal (month1_start c)
      - (if same_month (dt_date (base_date c)) (dt_date now2)
         then (if dt_us now2 <? dt_us now1 then 1 else 0) else 0) /\
    (0 <= days_passed ->
     valid_date (month2_end c) /\
     toordinal (month2_end c)
     = Z.min (toordinal L) (toordinal (month2_start c) + days_passed) /\
     (toordinal L < toordinal (month2_start c) + days_passed ->
      month2_end c = L)).
Proof.
  intros Hn1 Hn2 Hc.
  destruct (get_comparison_dates_inv _ _ _ _ Hn1 Hn2 Hc)
    as (L & Hb & Hbus & Hbo & H1s & H1e & HL & H2s & H2e).
  set (b := dt_date (base_date c)) in *.
  destruct Hb as [Hvb Hub]. fold b in Hvb.
  pose proof (valid_first_of_month _ Hvb) as Hv1.
  destruct (prev_day_first_of_month _ _ _ Hv1 HL)
    as (HvL & HoL & HdL & Hv2 & Ho2).
  pose proof (days_in_month_bounds (year b) (month b)) as Hdim.
  pose proof (days_in_month_bounds (year L) (month L)) as HdimL.
  assert (Hspan : 1 <= toordinal (month1_end c) - toordinal (month1_start c) + 1
                    <= 31).
  { rewrite H1e, H1s. destruct (same_month b (dt_date now2)) eqn:Es.
    - apply same_month_true in Es. destruct Es as [Ey Em].
      destruct Hn2 as [Hv _]. apply valid_date_iff in Hv.
      unfold toordinal; simpl. rewrite <- Ey, <- Em in *. lia.
    - rewrite toordinal_end_of_month. lia. }
  exists L, (minus_days
               (mkdatetime (month1_end c)
                  (if same_month b (dt_date now2) then dt_us now2
                   else dt_us now1))
               (mkdatetime (month1_start c) (dt_us now1))).
  rewrite H1s at 1.
  split; [assumption|]. split; [assumption|]. split; [assumption|].
  split; [rewrite H1s; assumption|].
  split; [rewrite H2s; assumption|]. split; [assumption|].
  split; [assumption|].
  split.
  { rewrite minus_days_spec; simpl.
    - destruct (same_month b (dt_date now2)); [reflexivity|].
      rewrite Z.ltb_irrefl. reflexivity.
    - destruct (same_month b (dt_date now2)); [apply Hn2 | apply Hn1].
    - apply Hn1. }
  intros Hdp. rewrite H2e, H2s.
  set (dp := minus_days _ _) in *.
  assert (Hdp31 : dp <= 30).
  { subst dp. rewrite minus_days_spec; simpl.
    - destruct (same_month b (dt_date now2));
        [destruct (dt_us now2 <? dt_us now1)|rewrite Z.ltb_irrefl]; lia.
    - destruct (same_month b (dt_date now2)); [apply Hn2 | apply Hn1].
    - apply Hn1. }
  destruct (add_days_total (mkdate (year L) (month L) 1) dp Hv2) as [e He].
  { pose proof (toordinal_bounds _ Hv2).
    pose proof (toordinal_bounds _ HvL).
    assert (Hvend : valid_date (end_of_month (year b) (month b))).
    { apply valid_date_iff in Hvb. apply valid_date_iff. simpl. lia. }
    pose proof (toordinal_bounds _ Hvend) as Hb'.
    rewrite toordinal_end_of_month in Hb'. lia. }
  rewrite He. destruct (add_days_spec _ _ _ Hv2 He) as [Hve Hoe].
  pose proof (date_ltb_ordinal L e HvL Hve) as Hlt.
  destruct (date_ltb L e).
  - assert (toordinal L < toordinal e) by (apply Hlt; reflexivity).
    split; [assumption|]. split; [lia | reflexivity].
  - assert (~ toordinal L < toordinal e)
      by (intros Hx; apply Hlt in Hx; discriminate).
    split; [assumption|]. split; [lia | intros; lia].
Qed.



Lemma datetime_leb_spec a b :
  valid_datetime a -> valid_datetime b ->
  datetime_leb a b = true ->
  toordinal (dt_date a) <= toordinal (dt_date b) /\
  (dt_date a = dt_date b -> dt_us a <= dt_us b).
Proof.
  intros [Ha _] [Hb _]. unfold datetime_leb, datetime_ltb.
  rewrite negb_true_iff, orb_false_iff, andb_false_iff. intros [H1 H2].
  pose proof (date_ltb_ordinal _ _ Hb Ha) as Hlt.
  split.
  - destruct (Z_lt_le_dec (toordinal (dt_date b)) (toordinal (dt_date a)))
      as [Hx|Hx]; [apply Hlt in Hx; congruence | assumption].
  - intros E. destruct H2 as [H2|H2].
    + assert (date_eqb (dt_date b) (dt_date a) = true)
        by (apply date_eqb_eq; auto). congruence.
    + apply Z.ltb_ge in H2. assumption.
Qed.

Lemma first_month_of_year_one b :
  valid_date b -> (toordinal b <= 31 <-> year b = 1 /\ month b = 1).
Proof.
  intros Hv. apply valid_date_iff in Hv. destruct Hv as (Hy & Hm & Hd).
  unfold toordinal. split.
  - intros Ho.
    assert (year b = 1).
    { destruct (Z.eq_dec (year b) 1); [assumption|].
      pose proof (days_before_year_mono 1 (year b)).
      pose proof (days_before_month_bounds (year b) (month b) Hm).
      change (days_before_year 1) with 0 in *. lia. }
    split; [assumption|].
    destruct (Z.eq_dec (month b) 1); [assumption|].
    assert (31 <= days_before_month (year b) (month b)).
    { pose proof (month_cases _ Hm) as Hc. unfold days_before_month.
      destruct (is_leap (year b));
        repeat (destruct Hc as [Hc|Hc]); rewrite Hc; simpl; lia. }
    assert (days_before_year (year b) = 0) by (rewrite H; reflexivity).
    lia.
  - intros [Ey Em]. rewrite Ey, Em in *.
    change (days_before_year 1) with 0.
    change (days_before_month 1 1) with 0.
    change (days_in_month 1 1) with 31 in Hd. lia.
Qed.

Lemma last_month_of_time b t :
  valid_date b -> valid_date t -> toordinal b <= toordinal t ->
  year b = 9999 -> month b = 12 -> same_month b t = true.
Proof.
  intros Hb Ht Ho Ey Em.
  assert (Hf : valid_date (mkdate 9999 12 1)) by reflexivity.
  pose proof (date_ltb_ordinal t (mkdate 9999 12 1) Ht Hf) as Hlt.
  assert (toordinal (mkdate 9999 12 1) <= toordinal b).
  { apply valid_date_iff in Hb. unfold toordinal. rewrite Ey, Em. simpl. lia. }
  assert (Hn : date_ltb t (mkdate 9999 12 1) = false).
  { destruct (date_ltb t (mkdate 9999 12 1)); [|reflexivity].
    assert (toordinal t < toordinal (mkdate 9999 12 1)) by (apply Hlt; auto).
    lia. }
  apply valid_date_iff in Ht. unfold date_ltb in Hn. simpl in Hn.
  rewrite !orb_false_iff, !andb_false_iff, !orb_false_iff, !andb_false_iff,
    !Z.ltb_ge, !Z.eqb_neq in Hn.
  apply same_month_true. lia.
Qed.

(** The month-end stage of the calculator returns whenever the month
    after the base month exists. *)
Lemma month1_end_returns base today :
  valid_datetime base ->
  (same_month (dt_date base) (dt_date today) = false ->
   ~ (year (dt_date base) = 9999 /\ month (dt_date base) = 12)) ->
  exists m1e,
    (if (year (dt_date base) =? year (dt_date today))
        && (month (dt_date base) =? month (dt_date today))
     then Returns today
     else
       next_month ←
         (if month (dt_date base) =? 12
          then replace_ymd base (year (dt_date base) + 1) 1 1
          else replace_ymd base (year (dt_date base))
                           (month (dt_date base) + 1) 1);
       plus_days next_month (-1)) = Returns m1e.
Proof.
  intros [Hv _] Hlast. fold (same_month (dt_date base) (dt_date today)).
  destruct (same_month _ _); [eauto|]. specialize (Hlast eq_refl).
  apply valid_date_iff in Hv. destruct Hv as (Hy & Hm & Hd).
  set (b := dt_date base) in *.
  destruct (Z.eqb_spec (month b) 12) as [E|E].
  - assert (Hn : valid_dateb (mkdate (year b + 1) 1 1) = true).
    { apply valid_date_iff. simpl. change (days_in_month _ 1) with 31. lia. }
    unfold replace_ymd. rewrite Hn. simpl. rewrite plus_days_minus_one. simpl.
    unfold prev_day, MINYEAR. simpl.
    destruct (Z.ltb_spec 1 (year b + 1)); [|lia]. simpl. eauto.
  - assert (Hn : valid_dateb (mkdate (year b) (month b + 1) 1) = true).
    { apply valid_date_iff. simpl.
      pose proof (days_in_month_bounds (year b) (month b + 1)). lia. }
    unfold replace_ymd. rewrite Hn. simpl. rewrite plus_days_minus_one. simpl.
    unfold prev_day. simpl.
    destruct (Z.ltb_spec 1 (month b + 1)); [|lia]. simpl. eauto.
Qed.

(** The base date of a call: [now1], moved back 30 days per month of
    offset. *)
Lemma base_date_returns now1 k :
  valid_datetime now1 -> 1 <= toordinal (dt_date now1) - 30 * k -> 0 <= k ->
  exists base,
    (if 0 <? k then plus_days now1 (- (30 * k)) else Returns now1)
    = Returns base /\
    valid_datetime base /\
    toordinal (dt_date base) = toordinal (dt_date now1) - 30 * k.
Proof.
  intros Hn Ho Hk. destruct (Z.ltb_spec 0 k).
  - destruct Hn as [Hv Hu].
    destruct (add_days_total (dt_date now1) (- (30 * k)) Hv) as [d Hd].
    { pose proof (toordinal_bounds _ Hv). lia. }
    exists (mkdatetime d (dt_us now1)). unfold plus_days. rewrite Hd. simpl.
    destruct (add_days_spec _ _ _ Hv Hd).
    split; [reflexivity|]. split; [split; assumption | lia].
  - exists now1. split; [reflexivity|]. split; [assumption | lia].
Qed.

Lemma replace_ymd_valid t y m d :
  valid_date (mkdate y m d) ->
  replace_ymd t y m d = Returns (mkdatetime (mkdate y m d) (dt_us t)).
Proof. unfold replace_ymd, valid_date. intros ->. reflexivity. Qed.

Lemma get_comparison_dates_returns now1 now2 k :
  valid_datetime now1 -> valid_datetime now2 ->
  datetime_leb now1 now2 = true -> 0 <= k ->
  32 <= toordinal (dt_date now1) - 30 * k ->
  exists c, get_comparison_dates now1 now2 k = Returns c.
Proof.
  intros Hn1 Hn2 Hle Hk Ho.
  destruct (base_date_returns now1 k Hn1 ltac:(lia) Hk)
    as (base & Eb & Hb & Hbo).
  destruct (datetime_leb_spec _ _ Hn1 Hn2 Hle) as [Hord _].
  unfold get_comparison_dates. rewrite Eb. simpl.
  pose proof (valid_first_of_month _ (proj1 Hb)) as Hv1.
  rewrite (replace_ymd_valid base _ _ _ Hv1). simpl.
  destruct (month1_end_returns base now2 Hb) as [m1e Em].
  { intros Hs [Ey Em]. rewrite last_month_of_time in Hs;
      [discriminate | apply Hb | apply Hn2 | lia | assumption | assumption]. }
  rewrite Em. simpl. rewrite plus_days_minus_one. simpl.
  destruct (prev_day (mkdate (year (dt_date base)) (month (dt_date base)) 1))
    as [L|] eqn:EL.
  - simpl. destruct (prev_day_first_of_month _ _ _ Hv1 EL)
      as (_ & _ & _ & Hv2 & _).
    rewrite (replace_ymd_valid _ _ _ _ Hv2). simpl. eauto.
  - apply prev_day_None in EL; [|assumption].
    pose proof (first_month_of_year_one (dt_date base) (proj1 Hb)) as Hf.
    assert (toordinal (dt_date base)
            >= toordinal (mkdate (year (dt_date base))
                                 (month (dt_date base)) 1)).
    { destruct Hb as [Hb _]. apply valid_date_iff in Hb.
      unfold toordinal; simpl. lia. }
    assert (Hx : 32 <= toordinal (dt_date base)) by lia.
    assert (Hjan : year (dt_date base) = 1 /\ month (dt_date base) = 1).
    { pose proof (first_month_of_year_one _ Hv1) as Hg. simpl in Hg.
      apply Hg. lia. }
    apply Hf in Hjan. lia.
Qed.

Lemma get_comparison_dates_raises now1 now2 k :
  valid_datetime now1 -> valid_datetime now2 -> 0 <= k ->
  toordinal (dt_date now1) - 30 * k < 32 ->
  get_comparison_dates now1 now2 k = Raises OverflowError.
Proof.
  intros Hn1 Hn2 Hk Ho.
  destruct (Z_lt_le_dec (toordinal (dt_date now1) - 30 * k) 1) as [Hlow|Hin].
  - unfold get_comparison_dates.
    assert (0 < k).
    { pose proof (toordinal_bounds _ (proj1 Hn1)). lia. }
    destruct (Z.ltb_spec 0 k); [|lia].
    unfold plus_days. rewrite add_days_overflow; [reflexivity | apply Hn1 | lia].
  - destruct (base_date_returns now1 k Hn1 Hin Hk) as (base & Eb & Hb & Hbo).
    unfold get_comparison_dates. rewrite Eb. simpl.
    pose proof (valid_first_of_month _ (proj1 Hb)) as Hv1.
    rewrite (replace_ymd_valid base _ _ _ Hv1). simpl.
    assert (Hjan : year (dt_date base) = 1 /\ month (dt_date base) = 1)
      by (apply first_month_of_year_one; [apply Hb | lia]).
    destruct (month1_end_returns base now2 Hb) as [m1e Em]; [lia|].
    rewrite Em. simpl. rewrite plus_days_minus_one. simpl.
    destruct Hjan as [-> ->]. reflexivity.
Qed.

Lemma get_comparison_dates_valid_dates now1 now2 k c :
  valid_datetime now1 -> valid_datetime now2 ->
  get_comparison_dates now1 now2 k = Returns c ->
  valid_date (month1_start c) /\ valid_date (month1_end c) /\
  valid_date (month2_start c) /\
  toordinal (month1_start c) <= toordinal (dt_date (base_date c)).
Proof.
  intros Hn1 Hn2 Hc.
  destruct (get_comparison_dates_inv _ _ _ _ Hn1 Hn2 Hc)
    as (L & Hb & _ & _ & H1s & H1e & HL & H2s & _).
  pose proof (valid_first_of_month _ (proj1 Hb)) as Hv1.
  destruct (prev_day_first_of_month _ _ _ Hv1 HL) as (_ & _ & _ & Hv2 & _).
  rewrite H1s, H1e, H2s. split; [assumption|]. split; [|split; [assumption|]].
  - destruct (same_month _ _); [apply Hn2|].
    destruct Hb as [Hb _]. apply valid_date_iff in Hb.
    apply valid_date_iff. simpl. lia.
  - destruct Hb as [Hb _]. apply valid_date_iff in Hb.
    unfold toordinal; simpl. lia.
Qed.

(** C8, as the code has it. For clock readings in order and an offset
    [k >= 0], the calculator returns a pair with
    [month1_start <= month1_end] and [month2_start <= month2_end] whenever
    the base date, 30 days back per month of offset, is 0001-02-01 or
    later; for every larger offset it raises [OverflowError]. *)
Theorem window_calculator_valid_pair now1 now2 k :
  valid_datetime now1 -> valid_datetime now2 ->
  datetime_leb now1 now2 = true -> 0 <= k ->
  (toordinal (mkdate 1 2 1) <= toordinal (dt_date now1) - 30 * k ->
   exists c,
     get_comparison_dates now1 now2 k = Returns c /\
     date_leb (month1_start c) (month1_end c) = true /\
     date_leb (month2_start c) (month2_end c) = true) /\
  (toordinal (dt_date now1) - 30 * k < toordinal (mkdate 1 2 1) ->
   get_comparison_dates now1 now2 k = Raises OverflowError).
Proof.
  intros Hn1 Hn2 Hle Hk. change (toordinal (mkdate 1 2 1)) with 32.
  split; [|apply get_comparison_dates_raises; assumption].
  intros Ho.
  destruct (get_comparison_dates_returns _ _ _ Hn1 Hn2 Hle Hk Ho) as [c Hc].
  exists c. split; [assumption|].
  destruct (get_comparison_dates_valid_dates _ _ _ _ Hn1 Hn2 Hc)
    as (Hv1s & Hv1e & Hv2s & Hbase).
  destruct (get_comparison_dates_ordinals _ _ _ _ Hn1 Hn2 Hc)
    as (L & dp & HL & HvL & H2s & HoL & Ho2 & HdL & Hspan & Hdp & Hend).
  destruct (get_comparison_dates_inv _ _ _ _ Hn1 Hn2 Hc)
    as (_ & _ & _ & Hbo & _ & H1e & _).
  destruct (datetime_leb_spec _ _ Hn1 Hn2 Hle) as [Hord Hus].
  split; [apply date_leb_ordinal; [assumption | assumption | lia]|].
  assert (Hdp0 : 0 <= dp).
  { rewrite Hdp.
    destruct (same_month (dt_date (base_date c)) (dt_date now2)) eqn:Es; [|lia].
    destruct (Z.ltb_spec (dt_us now2) (dt_us now1)) as [Hlt|]; [|lia].
    destruct (Z.eq_dec (toordinal (month1_end c)) (toordinal (month1_start c)))
      as [E|]; [|lia].
    rewrite H1e in E.
    assert (Hk' : (if 0 <? k then 30 * k else 0) = 30 * k)
      by (destruct (Z.ltb_spec 0 k); lia).
    assert (dt_date now1 = dt_date now2).
    { apply toordinal_inj; [apply Hn1 | apply Hn2 | lia]. }
    specialize (Hus H). lia. }
  destruct (Hend Hdp0) as (Hv2e & Hmin & _).
  pose proof (days_in_month_bounds (year L) (month L)).
  apply date_leb_ordinal; [assumption | assumption | lia].
Qed.

Lemma window_calculator_valid_pair_witness :
  exists c,
    get_comparison_dates (mkdatetime (mkdate 2024 2 21) 100)
                         (mkdatetime (mkdate 2024 2 21) 200) 0 = Returns c /\
    date_leb (month1_start c) (month1_end c) = true /\
    date_leb (month2_start c) (month2_end c) = true.
Proof.
  apply (window_calculator_valid_pair
           (mkdatetime (mkdate 2024 2 21) 100)
           (mkdatetime (mkdate 2024 2 21) 200) 0).
  - split; [reflexivity | unfold DAY_US; simpl; lia].
  - split; [reflexivity | unfold DAY_US; simpl; lia].
  - reflexivity.
  - lia.
  - vm_compute. discriminate.
Defined.

(** C8 as stated fails: in March 2024, an offset of 25000 months puts the
    base date before 0001-01-01 and the call raises. *)
Lemma window_calculator_offset_counterexample :
  valid_datetime (mkdatetime (mkdate 2024 3 30) 0) /\ 0 <= 25000 /\
  get_comparison_dates (mkdatetime (mkdate 2024 3 30) 0)
                       (mkdatetime (mkdate 2024 3 30) 0) 25000
  = Raises OverflowError.
Proof.
  split; [split; [reflexivity | unfold DAY_US; simpl; lia]|].
  split; [lia|].
  apply get_comparison_dates_raises.
  - split; [reflexivity | unfold DAY_US; simpl; lia].
  - split; [reflexivity | unfold DAY_US; simpl; lia].
  - lia.
  - vm_compute. reflexivity.
Qed.

(** Two readings of the clock around midnight: the floor in [(a - b).days]
    then shortens the prior window by a day (see the hypothesis of C2). *)
Example comparison_windows_midnight :
  exists c,
    get_comparison_dates (mkdatetime (mkdate 2024 3 14) 86399999999)
                         (mkdatetime (mkdate 2024 3 15) 1) 0 = Returns c /\
    month1_end c = mkdate 2024 3 15 /\ month2_end c = mkdate 2024 2 14.
Proof. eexists. split; [vm_compute; reflexivity|]. split; reflexivity. Qed.

(** ** The cumulative trend builder *)

(** The values of a series under [key], a missing one read as 0. *)
Definition values_of (key : string) (daily_data : list row) : list Z :=
  map (fun r => default 0 (vals r !! key)) daily_data.

Definition Zsum (l : list Z) : Z := foldr Z.add 0 l.

Lemma wrap64_small z : - 2 ^ 63 <= z < 2 ^ 63 -> wrap64 z = z.
Proof.
  intros H. unfold wrap64.
  rewrite Z.mod_small by (change (2 ^ 64) with (2 * 2 ^ 63); lia). lia.
Qed.

Lemma Zsum_app l1 l2 : Zsum (l1 ++ l2) = Zsum l1 + Zsum l2.
Proof. induction l1 as [|x l1 IH]; simpl; [reflexivity | rewrite IH; lia]. Qed.

Lemma Zsum_nonneg l : Forall (fun v => 0 <= v) l -> 0 <= Zsum l.
Proof. induction 1; simpl; lia. Qed.

(** Running sums of nonnegative int64 values that stay below 2^63. *)
Lemma cumsum_from_wrap64 acc vs :
  Forall (fun v => 0 <= v) vs -> 0 <= acc -> acc + Zsum vs < 2 ^ 63 ->
  forall i v, vs !! i = Some v ->
    cumsum_from wrap64 acc (map Some vs) !! i
    = Some (Some (acc + Zsum (take (S i) vs))).
Proof.
  intros Hvs. revert acc. induction Hvs as [|x vs Hx Hvs IH]; intros acc Ha Hs.
  - intros i v E. discriminate.
  - simpl in Hs. pose proof (Zsum_nonneg _ Hvs).
    intros [|i] v E; simpl.
    + rewrite wrap64_small by lia. do 2 f_equal. rewrite ?take_0. simpl. lia.
    + rewrite wrap64_small by lia. simpl in E.
      rewrite (IH (acc + x) ltac:(lia) ltac:(lia) i v E).
      do 2 f_equal. lia.
Qed.

Lemma cumsum_from_length norm acc col :
  length (cumsum_from norm acc col) = length col.
Proof.
  revert acc. induction col as [|[v|] col IH]; intros acc; simpl;
    [reflexivity | rewrite IH; reflexivity | rewrite IH; reflexivity].
Qed.

Lemma Zsum_take_S l (i : nat) v :
  l !! i = Some v -> Zsum (take (S i) l) = Zsum (take i l) + v.
Proof.
  intros H. rewrite (take_S_r _ _ _ H), Zsum_app. simpl. lia.
Qed.

Lemma Zsum_take_mono l (i j : nat) :
  Forall (fun v => 0 <= v) l -> (i <= j)%nat ->
  Zsum (take i l) <= Zsum (take j l).
Proof.
  intros Hl Hij. induction Hij as [|j Hij IH]; [lia|].
  destruct (l !! j) as [v|] eqn:E.
  - rewrite (Zsum_take_S _ _ _ E).
    assert (0 <= v).
    { rewrite Forall_forall in Hl. apply Hl.
      eapply list_elem_of_lookup_2. exact E. }
    lia.
  - apply lookup_ge_None in E.
    rewrite (take_ge l (S j)) by lia. rewrite (take_ge l j) in IH by lia.
    assumption.
Qed.

(** A zero-filled series of counts: every record has its date and a
    nonnegative count under [key]. *)
Definition count_series (key : string) (daily_data : list row) : Prop :=
  Forall (fun r => is_Some (Date r) /\
                   exists v, vals r !! key = Some v /\ 0 <= v) daily_data.

Lemma lookup_map {A B} (f : A -> B) (l : list A) (i : nat) :
  map f l !! i = f <$> (l !! i).
Proof.
  revert i. induction l as [|x l IH]; intros [|i]; simpl; auto.
Qed.

Lemma count_series_column key daily_data :
  count_series key daily_data ->
  map (fun r => vals r !! key) daily_data
  = map Some (values_of key daily_data) /\
  Forall (fun v => 0 <= v) (values_of key daily_data).
Proof.
  unfold values_of. induction 1 as [|r rs [_ (v & Hv & Hv0)] _ [IH1 IH2]];
    simpl; [split; constructor|].
  rewrite IH1, Hv. simpl. split; [reflexivity | constructor; assumption].
Qed.

Lemma forallb_map_Some (vs : list Z) :
  forallb (fun c : option Z => bool_decide (is_Some c)) (map Some vs) = true.
Proof. induction vs; simpl; auto. Qed.

(** What the builder returns on a zero-filled series. *)
Lemma calculate_cumulative_count_series key r daily_data :
  count_series key (r :: daily_data) ->
  calculate_cumulative (r :: daily_data) key
  = Returns (zip_with mkworm (map Date (r :: daily_data))
               (cumsum_from wrap64 0
                  (map Some (values_of key (r :: daily_data))))).
Proof.
  intros Hs. destruct (count_series_column _ _ Hs) as [Hcol _].
  unfold calculate_cumulative, cumsum. rewrite Hcol, forallb_map_Some.
  inversion Hs as [|? ? [Hd (v & Hv & _)] _]; subst.
  assert (Hin : in_columns key (r :: daily_data) = true).
  { simpl. rewrite Hv. reflexivity. }
  assert (Hdate : has_date_column (r :: daily_data) = true).
  { simpl. destruct Hd as [d ->]. reflexivity. }
  rewrite Hin, Hdate. reflexivity.
Qed.

(** C6. On a zero-filled series of counts whose total fits the int64
    column, the builder returns one point per record, in order, the i-th
    carrying the record's date and the sum of the first i+1 values; the
    last cumulative value is the sum of all values, the cumulative values
    never decrease, and the empty series gives the empty list. *)
Theorem calculate_cumulative_running_sums :
  (forall daily_data key,
     count_series key daily_data ->
     Zsum (values_of key daily_data) < 2 ^ 63 ->
     exists out,
       calculate_cumulative daily_data key = Returns out /\
       length out = length daily_data /\
       (forall i r, daily_data !! i = Some r ->
          out !! i
          = Some (mkworm (Date r)
                    (Some (Zsum (take (S i) (values_of key daily_data)))))) /\
       (forall w, last out = Some w ->
          Cumulative w = Some (Zsum (values_of key daily_data))) /\
       (forall i j wi wj a b,
          (i <= j)%nat -> out !! i = Some wi -> out !! j = Some wj ->
          Cumulative wi = Some a -> Cumulative wj = Some b -> a <= b)) /\
  (forall key, calculate_cumulative [] key = Returns []).
Proof.
  split; [|reflexivity].
  intros daily_data key Hs Hsum.
  destruct daily_data as [|r0 rest].
  { exists []. split; [reflexivity|]. split; [reflexivity|].
    split; [intros i r H; discriminate|].
    split; [intros w H; discriminate | intros i j wi wj a b _ H; discriminate]. }
  set (rows := r0 :: rest) in *.
  destruct (count_series_column _ _ Hs) as [Hcol Hnn].
  set (vs := values_of key rows) in *.
  assert (Hlen : length vs = length rows)
    by (unfold vs, values_of; apply length_map).
  assert (Hpoint : forall i r, rows !! i = Some r ->
            zip_with mkworm (map Date rows)
              (cumsum_from wrap64 0 (map Some vs)) !! i
            = Some (mkworm (Date r) (Some (Zsum (take (S i) vs))))).
  { intros i r Hr.
    assert (Hv : vs !! i = Some (default 0 (vals r !! key))).
    { unfold vs, values_of. rewrite lookup_map, Hr. reflexivity. }
    rewrite lookup_zip_with, lookup_map, Hr.
    rewrite (cumsum_from_wrap64 0 vs Hnn ltac:(lia) ltac:(lia) i _ Hv).
    reflexivity. }
  eexists. split; [apply calculate_cumulative_count_series; assumption|].
  fold rows. fold vs.
  assert (Hlo : length (zip_with mkworm (map Date rows)
                          (cumsum_from wrap64 0 (map Some vs)))
                = length rows).
  { rewrite length_zip_with, cumsum_from_length, !length_map. lia. }
  split; [assumption|]. split; [assumption|]. split.
  - intros w Hw. rewrite last_lookup, Hlo in Hw.
    destruct (rows !! pred (length rows)) as [r|] eqn:Er.
    + rewrite (Hpoint _ _ Er) in Hw. injection Hw as <-.
      cbn [Cumulative]. rewrite take_ge; [reflexivity|].
      clear -Hlen. unfold vs, rows in *. simpl in *. lia.
    + apply lookup_ge_None in Er. simpl in Er. lia.
  - intros i j wi wj a b Hij Hi Hj Ha Hb.
    assert (Hri : is_Some (rows !! i)).
    { apply lookup_lt_is_Some. rewrite <- Hlo.
      apply lookup_lt_is_Some. eauto. }
    assert (Hrj : is_Some (rows !! j)).
    { apply lookup_lt_is_Some. rewrite <- Hlo.
      apply lookup_lt_is_Some. eauto. }
    destruct Hri as [ri Hri], Hrj as [rj Hrj].
    rewrite (Hpoint _ _ Hri) in Hi. rewrite (Hpoint _ _ Hrj) in Hj.
    injection Hi as <-. injection Hj as <-. cbn [Cumulative] in Ha, Hb.
    injection Ha as <-. injection Hb as <-.
    apply (Zsum_take_mono vs (S i) (S j)); [assumption | lia].
Qed.

Lemma calculate_cumulative_running_sums_witness :
  exists out,
    calculate_cumulative
      [count_row "2024-02-01" 0; count_row "2024-02-02" 5;
       count_row "2024-02-03" 2] "Count" = Returns out /\
    out !! 2%nat = Some (mkworm (Some "2024-02-03"%string) (Some 7)).
Proof.
  destruct (proj1 calculate_cumulative_running_sums
              [count_row "2024-02-01" 0; count_row "2024-02-02" 5;
               count_row "2024-02-03" 2] "Count"%string)
    as (out & Hout & _ & Hpt & _).
  - repeat constructor; simpl; eauto;
      eexists; (split; [vm_compute; reflexivity | lia]).
  - vm_compute. reflexivity.
  - exists out. split; [assumption|].
    apply (Hpt 2%nat (count_row "2024-02-03" 2) eq_refl).
Defined.

(** C10. When no record carries the requested value field (the columns
    of the frame are the keys of the records), the builder returns the
    empty list, whatever the series holds, and does not raise. *)
Theorem calculate_cumulative_absent_field daily_data key :
  key <> "Date"%string ->
  Forall (fun r => vals r !! key = None) daily_data ->
  calculate_cumulative daily_data key = Returns [].
Proof.
  intros _ Habs. unfold calculate_cumulative.
  destruct daily_data as [|r rest]; [reflexivity|].
  assert (Hin : in_columns key (r :: rest) = false).
  { unfold in_columns. apply not_true_is_false. intros Hex.
    apply existsb_exists in Hex. destruct Hex as (x & Hx & Hsome).
    rewrite Forall_forall in Habs.
    apply list_elem_of_In in Hx. rewrite (Habs _ Hx) in Hsome.
    apply bool_decide_eq_true in Hsome. destruct Hsome. discriminate. }
  rewrite Hin. reflexivity.
Qed.

Lemma calculate_cumulative_absent_field_witness :
  calculate_cumulative
    [count_row "2024-02-01" 3; count_row "2024-02-02" 5] "New Users"
  = Returns [].
Proof.
  apply calculate_cumulative_absent_field.
  - discriminate.
  - repeat constructor.
Defined.

(** ** The date-range fill *)

(** The [n] days from [d] on. *)
Fixpoint days_from (d : date) (n : nat) : list date :=
  match n with
  | O => []
  | S n' => d :: match next_day d with
                 | Some d' => days_from d' n'
                 | None => []
                 end
  end.

(** The point the fill appends for day [d]. *)
Definition fill_point (daily_counts : gmap string Z) (d : date) : row :=
  count_row (strftime_ymd d) (default 0 (daily_counts !! strftime_ymd d)).

Lemma days_from_lookup n d (i : nat) :
  valid_date d -> (i < n)%nat -> toordinal d + Z.of_nat i <= MAXORDINAL ->
  exists d', add_days d (Z.of_nat i) = Some d' /\ days_from d n !! i = Some d'.
Proof.
  unfold add_days. destruct (Z.leb_spec 0 (Z.of_nat i)); [|lia].
  rewrite Nat2Z.id. revert d n.
  induction i as [|i IH]; intros d n Hv Hi Ho.
  - destruct n; [lia|]. exists d. split; reflexivity.
  - destruct n; [lia|]. simpl.
    destruct (next_day d) as [e|] eqn:E.
    + destruct (next_day_spec _ _ Hv E) as [He Hoe].
      apply IH; [lia | assumption | lia | lia].
    + apply next_day_None in E; [lia | assumption].
Qed.

Lemma days_from_length n d :
  valid_date d -> toordinal d + Z.of_nat n <= MAXORDINAL + 1 ->
  length (days_from d n) = n.
Proof.
  revert d. induction n as [|n IH]; intros d Hv Ho; [reflexivity|]. simpl.
  destruct n as [|n]; [destruct (next_day d); reflexivity|].
  destruct (next_day d) as [e|] eqn:E.
  - destruct (next_day_spec _ _ Hv E) as [He Hoe].
    rewrite IH; [reflexivity | assumption | lia].
  - apply next_day_None in E; [lia | assumption].
Qed.

(** The loop of the fill, from any day [curr] up to the day after
    [chart_end]. *)
Lemma fill_loop_spec daily_counts chart_end :
  valid_date chart_end -> toordinal chart_end < MAXORDINAL ->
  forall n curr sorted_daily fuel,
    valid_date curr ->
    Z.of_nat n = toordinal chart_end - toordinal curr + 1 ->
    (n < fuel)%nat ->
    exists d,
      while_loop fuel (fill_cond chart_end) (fill_body daily_counts)
                 (curr, sorted_daily)
      = Some (Exited (d, sorted_daily
                         ++ map (fill_point daily_counts) (days_from curr n))).
Proof.
  intros Hend Hmax. induction n as [|n IH]; intros curr acc fuel Hv Hn Hf.
  - destruct fuel as [|fuel]; [lia|]. rewrite while_loop_unfold.
    unfold fill_cond at 1. cbn [fst].
    assert (Hc : date_leb curr chart_end = false).
    { apply not_true_is_false. intros Hc.
      apply date_leb_ordinal in Hc; [lia | assumption | assumption]. }
    rewrite Hc. cbn [days_from map]. rewrite app_nil_r. eauto.
  - destruct fuel as [|fuel]; [lia|]. rewrite while_loop_unfold.
    unfold fill_cond at 1. cbn [fst].
    assert (Hc : date_leb curr chart_end = true)
      by (apply date_leb_ordinal; [assumption | assumption | lia]).
    rewrite Hc. unfold fill_body at 1. cbv beta iota zeta.
    fold (fill_point daily_counts curr).
    destruct (next_day curr) as [e|] eqn:E.
    + destruct (next_day_spec _ _ Hv E) as [He Hoe].
      destruct (IH e (acc ++ [fill_point daily_counts curr]) fuel He
                  ltac:(lia) ltac:(lia)) as [d Hd].
      exists d. rewrite Hd. cbn [days_from map]. rewrite E.
      rewrite <- app_assoc. reflexivity.
    + apply next_day_None in E; [lia | assumption].
Qed.

(** C7. For a window that ends before 9999-12-31, the fill returns one
    point per day from [start_date] to [end_date] inclusive, the i-th being
    day [start_date + i] with the count the daily map has for that day's
    string, or 0. For (2024-02-01, 2024-02-03) and {"2024-02-02": 5} it
    returns the counts 0, 5, 0. *)
Theorem fill_date_range_one_point_per_day :
  (forall start_date end_date daily_counts fuel,
     valid_date start_date -> valid_date end_date ->
     toordinal end_date < MAXORDINAL ->
     let n := Z.to_nat (toordinal end_date - toordinal start_date + 1) in
     (n < fuel)%nat ->
     exists out,
       fill_date_range fuel start_date end_date daily_counts
       = Some (Returns out) /\
       length out = n /\
       forall i : nat, (i < n)%nat ->
         exists d,
           add_days start_date (Z.of_nat i) = Some d /\
           out !! i
           = Some (count_row (strftime_ymd d)
                     (default 0 (daily_counts !! strftime_ymd d)))) /\
  fill_date_range 4 (mkdate 2024 2 1) (mkdate 2024 2 3)
                  {[ "2024-02-02"%string := 5 ]}
  = Some (Returns [count_row "2024-02-01" 0; count_row "2024-02-02" 5;
                   count_row "2024-02-03" 0]).
Proof.
  split; [|vm_compute; reflexivity].
  intros start_date end_date daily_counts fuel Hs He Hmax n Hf.
  unfold fill_date_range, fill_date_range_loop, _chart_end_date.
  destruct (Z_lt_le_dec (toordinal end_date) (toordinal start_date)) as [Hlt|Hle].
  - (* an empty window *)
    assert (Hn : n = 0%nat) by (unfold n; lia). rewrite Hn in *.
    destruct fuel as [|fuel]; [lia|]. simpl. unfold fill_cond. simpl.
    assert (Hc : date_leb start_date end_date = false).
    { apply not_true_is_false. intros Hc.
      apply date_leb_ordinal in Hc; [lia | assumption | assumption]. }
    rewrite Hc. simpl. exists []. split; [reflexivity|].
    split; [reflexivity | intros i Hi; lia].
  - destruct (fill_loop_spec daily_counts end_date He Hmax n start_date []
                fuel Hs ltac:(unfold n; lia) Hf) as [d Hd].
    rewrite Hd. simpl.
    exists (map (fill_point daily_counts) (days_from start_date n)).
    split; [reflexivity|].
    split.
    + rewrite length_map. apply days_from_length; [assumption|].
      unfold n. lia.
    + intros i Hi.
      destruct (days_from_lookup n start_date i Hs Hi ltac:(unfold n in Hi; lia))
        as (d' & Hadd & Hlk).
      exists d'. split; [assumption|].
      rewrite lookup_map, Hlk. reflexivity.
Qed.

Lemma fill_date_range_one_point_per_day_witness :
  exists out,
    fill_date_range 10 (mkdate 2024 2 27) (mkdate 2024 3 2) ∅
    = Some (Returns out) /\
    length out = 5%nat.
Proof.
  destruct (proj1 fill_date_range_one_point_per_day
              (mkdate 2024 2 27) (mkdate 2024 3 2) ∅ 10%nat)
    as (out & Hout & Hlen & _).
  - reflexivity.
  - reflexivity.
  - vm_compute. reflexivity.
  - vm_compute. lia.
  - exists out. split; [assumption | exact Hlen].
Defined.

(** ** The Kajabi fetch loops *)

(** A customer whose [updated_at] is before the window. *)
Definition stale_customer (dt_start_ist : Z) (c : customer) : bool :=
  match updated_at c with
  | At u_date => u_date <? dt_start_ist
  | _ => false
  end.

(** A customer whose [created_at] is in the window. *)
Definition customer_in_window (dt_start_ist dt_end_ist : Z) (c : customer)
  : bool :=
  match created_at c with
  | At c_date => (dt_start_ist <=? c_date) && (c_date <=? dt_end_ist)
  | _ => false
  end.

Definition stale_purchase (dt_start_ist : Z) (p : purchase) : bool :=
  match purchase_created_at p with
  | At p_date => p_date <? dt_start_ist
  | _ => false
  end.

Definition purchase_in_window (dt_start_ist dt_end_ist : Z) (p : purchase)
  : bool :=
  match purchase_created_at p with
  | At p_date => (dt_start_ist <=? p_date) && (p_date <=? dt_end_ist)
  | _ => false
  end.

(** [float(attrs.get('amount_in_cents', 0) or 0)] does not raise. *)
Definition amount_parses (p : purchase) : bool :=
  match amount_in_cents p with
  | BadAmount => false
  | _ => true
  end.

(** [float(attrs.get('amount_in_cents', 0) or 0) / 100]. *)
Definition purchase_amount (p : purchase) : Q :=
  match amount_in_cents p with
  | Amount cents => (cents / 100)%Q
  | _ => (0 / 100)%Q
  end.

(** The revenue the loop adds up over the purchases it keeps. *)
Definition add_revenue (revenue : Q) (ps : list purchase) : Q :=
  fold_left (fun revenue p => (revenue + purchase_amount p)%Q) ps revenue.

Lemma scan_customers_from dt_start_ist dt_end_ist batch flag all_customers :
  fold_left (classify_customer dt_start_ist dt_end_ist) batch
            (flag, all_customers)
  = (flag || existsb (stale_customer dt_start_ist) batch,
     all_customers
       ++ List.filter (customer_in_window dt_start_ist dt_end_ist) batch).
Proof.
  revert flag all_customers.
  induction batch as [|c batch IH]; intros flag acc0; simpl.
  - rewrite orb_false_r, app_nil_r. reflexivity.
  - rewrite IH. unfold stale_customer, customer_in_window. f_equal.
    + destruct (updated_at c) as [| |u]; simpl; try reflexivity.
      destruct (u <? dt_start_ist); simpl;
        [rewrite orb_true_r | ]; reflexivity.
    + destruct (created_at c) as [| |t]; simpl; try reflexivity.
      destruct ((dt_start_ist <=? t) && (t <=? dt_end_ist)); simpl;
        [rewrite <- app_assoc|]; reflexivity.
Qed.

Lemma scan_customers_spec dt_start_ist dt_end_ist batch all_customers :
  scan_customers dt_start_ist dt_end_ist batch all_customers
  = (existsb (stale_customer dt_start_ist) batch,
     all_customers
       ++ List.filter (customer_in_window dt_start_ist dt_end_ist) batch).
Proof. apply scan_customers_from. Qed.

Lemma classify_purchase_spec dt_start_ist dt_end_ist flag revenue filtered p :
  amount_parses p = true ->
  classify_purchase dt_start_ist dt_end_ist (flag, (revenue, filtered)) p
  = (flag || stale_purchase dt_start_ist p,
     if purchase_in_window dt_start_ist dt_end_ist p
     then ((revenue + purchase_amount p)%Q, filtered ++ [p])
     else (revenue, filtered)).
Proof.
  unfold classify_purchase, stale_purchase, purchase_in_window, amount_parses,
    purchase_amount.
  intros Hp. destruct (purchase_created_at p) as [| |t];
    rewrite ?orb_false_r; try reflexivity.
  destruct (Z.ltb_spec t dt_start_ist) as [Hlt|Hge].
  - assert (Hw : (dt_start_ist <=? t) && (t <=? dt_end_ist) = false).
    { apply andb_false_iff. left. apply Z.leb_gt. assumption. }
    rewrite Hw, orb_true_r. reflexivity.
  - rewrite orb_false_r.
    destruct ((dt_start_ist <=? t) && (t <=? dt_end_ist)); [|reflexivity].
    destruct (amount_in_cents p); [reflexivity | discriminate | reflexivity].
Qed.

Lemma scan_purchases_from dt_start_ist dt_end_ist batch :
  Forall (fun p => amount_parses p = true) batch ->
  forall flag revenue filtered,
    fold_left (classify_purchase dt_start_ist dt_end_ist) batch
              (flag, (revenue, filtered))
    = (flag || existsb (stale_purchase dt_start_ist) batch,
       (add_revenue revenue
          (List.filter (purchase_in_window dt_start_ist dt_end_ist) batch),
        filtered
          ++ List.filter (purchase_in_window dt_start_ist dt_end_ist) batch)).
Proof.
  induction 1 as [|p batch Hp _ IH]; intros flag revenue filtered.
  - simpl. rewrite orb_false_r, app_nil_r. reflexivity.
  - cbn [fold_left existsb List.filter].
    rewrite (classify_purchase_spec _ _ _ _ _ _ Hp).
    destruct (purchase_in_window dt_start_ist dt_end_ist p);
      rewrite IH, orb_assoc; [|reflexivity].
    rewrite <- app_assoc. reflexivity.
Qed.

Lemma scan_purchases_spec dt_start_ist dt_end_ist batch revenue filtered :
  Forall (fun p => amount_parses p = true) batch ->
  scan_purchases dt_start_ist dt_end_ist batch revenue filtered
  = (existsb (stale_purchase dt_start_ist) batch,
     (add_revenue revenue
        (List.filter (purchase_in_window dt_start_ist dt_end_ist) batch),
      filtered
        ++ List.filter (purchase_in_window dt_start_ist dt_end_ist) batch)).
Proof. intros H. apply (scan_purchases_from _ _ _ H false). Qed.

(** A request that does not deliver a page: it raised, or its status is
    not 200. *)
Definition failed {R U : Type} (r : response R U) : Prop :=
  match r with
  | NoResponse => True
  | Resp status_code _ => status_code <> 200
  end.

Section KajabiLoops.

Context {U : Type}.

(** A page of customers: all its records are classified, and the loop goes
    on to the next link unless one of them is stale. *)
Lemma customers_body_page (src : U -> response customer U) ws we s u json :
  next_url s = Some u -> src u = Resp 200 json -> data json <> [] ->
  let total_global :=
    if (page_count s =? 0)%nat then total json else fst (acc s) in
  let kept := snd (acc s) ++ List.filter (customer_in_window ws we) (data json) in
  customers_body src ws we s
  = if existsb (stale_customer ws) (data json)
    then Break (mkfetch (Some u) (page_count s) (total_global, kept)
                        (trace s ++ [u]))
    else Continue (mkfetch (next json) (S (page_count s)) (total_global, kept)
                           (trace s ++ [u])).
Proof.
  intros Hu Hsrc Hne. unfold customers_body. rewrite Hu. cbn [next_url trace].
  rewrite Hsrc. cbn [negb Z.eqb Pos.eqb].
  destruct (data json) as [|c batch] eqn:Ed; [congruence|].
  cbn [page_count acc snd fst next_url trace].
  rewrite scan_customers_spec.
  destruct (existsb (stale_customer ws) (c :: batch)); reflexivity.
Qed.

Lemma customers_body_failed (src : U -> response customer U) ws we s u :
  next_url s = Some u -> failed (src u) ->
  customers_body src ws we s
  = Break (mkfetch (next_url s) (page_count s) (acc s) (trace s ++ [u])).
Proof.
  intros Hu Hf. unfold customers_body. rewrite Hu.
  destruct (src u) as [|code json]; [reflexivity|].
  simpl in Hf. apply Z.eqb_neq in Hf. rewrite Hf. reflexivity.
Qed.

Lemma sales_body_page (src : U -> response purchase U) ws we s u json :
  next_url s = Some u -> src u = Resp 200 json -> data json <> [] ->
  Forall (fun p => amount_parses p = true) (data json) ->
  let kept := List.filter (purchase_in_window ws we) (data json) in
  let acc' := (add_revenue (fst (acc s)) kept, snd (acc s) ++ kept) in
  sales_body src ws we s
  = if existsb (stale_purchase ws) (data json)
    then Break (mkfetch (Some u) (page_count s) acc' (trace s ++ [u]))
    else Continue (mkfetch (next json) (S (page_count s)) acc'
                           (trace s ++ [u])).
Proof.
  intros Hu Hsrc Hne Hp. unfold sales_body. rewrite Hu. cbn [next_url trace].
  rewrite Hsrc. cbn [negb Z.eqb Pos.eqb].
  destruct (data json) as [|p batch] eqn:Ed; [congruence|].
  cbn [page_count acc snd fst next_url trace].
  rewrite (scan_purchases_spec _ _ _ _ _ Hp).
  destruct (existsb (stale_purchase ws) (p :: batch)); reflexivity.
Qed.


End KajabiLoops.

(** C1. In both windowed Kajabi loops, a page that arrives is classified
    as a whole: the kept records grow by every record of the page whose
    date is in the window (for purchases, on a page whose amounts parse),
    whether or not a record before it was stale; when some record of the
    page is stale (its recency field is before the window start) the loop
    ends there and the page's request is the last one issued, otherwise
    it goes on with the next link. For the three pages of the example and
    window start 6, only the first two pages are requested. *)
Theorem paginated_fetch_classifies_whole_page :
  (forall (U : Type) (src : U -> response customer U) ws we fuel s u json,
     next_url s = Some u -> (page_count s < 50)%nat ->
     src u = Resp 200 json -> data json <> [] ->
     let total_global :=
       if (page_count s =? 0)%nat then total json else fst (acc s) in
     let kept :=
       snd (acc s) ++ List.filter (customer_in_window ws we) (data json) in
     while_loop (S fuel) paged_cond (customers_body src ws we) s
     = if existsb (stale_customer ws) (data json)
       then Some (Exited (mkfetch (Some u) (page_count s)
                                  (total_global, kept) (trace s ++ [u])))
       else while_loop fuel paged_cond (customers_body src ws we)
              (mkfetch (next json) (S (page_count s))
                       (total_global, kept) (trace s ++ [u]))) /\
  (forall (U : Type) (src : U -> response purchase U) ws we fuel s u json,
     next_url s = Some u -> (page_count s < 50)%nat ->
     src u = Resp 200 json -> data json <> [] ->
     Forall (fun p => amount_parses p = true) (data json) ->
     let kept := List.filter (purchase_in_window ws we) (data json) in
     let acc' := (add_revenue (fst (acc s)) kept, snd (acc s) ++ kept) in
     while_loop (S fuel) paged_cond (sales_body src ws we) s
     = if existsb (stale_purchase ws) (data json)
       then Some (Exited (mkfetch (Some u) (page_count s) acc'
                                  (trace s ++ [u])))
       else while_loop fuel paged_cond (sales_body src ws we)
              (mkfetch (next json) (S (page_count s)) acc'
                       (trace s ++ [u]))) /\
  (let r1 := mkcustomer 1 (At 10) (At 10) in
   let r2 := mkcustomer 2 (At 5) (At 5) in
   let r3 := mkcustomer 3 (At 1) (At 1) in
   customers_loop 51 (serve_from [[r1]; [r2]; [r3]]) 0%nat 6 20
   = Some (Exited (mkfetch (Some 1%nat) 1%nat (3, [r1]) [0%nat; 1%nat]))) /\
  (let p1 := mkpurchase 1 (At 10) (Amount 500) in
   let p2 := mkpurchase 2 (At 5) (Amount 700) in
   let p3 := mkpurchase 3 (At 1) (Amount 900) in
   exists s,
     sales_loop 51 (serve_from [[p1]; [p2]; [p3]]) 0%nat 6 20
     = Some (Exited s) /\
     snd (acc s) = [p1] /\ trace s = [0%nat; 1%nat] /\
     (fst (acc s) == 5)%Q).
Proof.
  split; [|split; [|split]].
  - intros U src ws we fuel s u json Hu Hpc Hsrc Hne tg kept.
    rewrite while_loop_unfold.
    assert (Hc : paged_cond s = true).
    { unfold paged_cond. rewrite Hu. apply andb_true_iff. split.
      - apply bool_decide_eq_true. eauto.
      - apply Nat.ltb_lt. assumption. }
    rewrite Hc, (customers_body_page src ws we s u json Hu Hsrc Hne).
    fold tg. fold kept.
    destruct (existsb (stale_customer ws) (data json)); reflexivity.
  - intros U src ws we fuel s u json Hu Hpc Hsrc Hne Hp kept acc'.
    rewrite while_loop_unfold.
    assert (Hc : paged_cond s = true).
    { unfold paged_cond. rewrite Hu. apply andb_true_iff. split.
      - apply bool_decide_eq_true. eauto.
      - apply Nat.ltb_lt. assumption. }
    rewrite Hc, (sales_body_page src ws we s u json Hu Hsrc Hne Hp).
    fold kept. fold acc'.
    destruct (existsb (stale_purchase ws) (data json)); reflexivity.
  - vm_compute. reflexivity.
  - eexists. split; [vm_compute; reflexivity|].
    split; [reflexivity|]. split; [reflexivity|]. vm_compute. reflexivity.
Qed.

Lemma paginated_fetch_classifies_whole_page_witness :
  let old := mkcustomer 1 (At 3) (At 2) in
  let new := mkcustomer 2 (At 9) (At 8) in
  while_loop 1 paged_cond
    (customers_body (serve_from [[old; new]; [new]]) 6 20)
    (mkfetch (Some 0%nat) 0%nat (0, []) [])
  = Some (Exited (mkfetch (Some 0%nat) 0%nat (2, [new]) [0%nat])).
Proof.
  intros old new.
  apply (proj1 paginated_fetch_classifies_whole_page nat
           (serve_from [[old; new]; [new]]) 6 20 0%nat
           (mkfetch (Some 0%nat) 0%nat (0, []) []) 0%nat
           (mkpage [old; new] (Some 1%nat) 2)).
  - reflexivity.
  - simpl. lia.
  - reflexivity.
  - discriminate.
Defined.

(** ** The page cap *)

Definition end_state {S : Type} (r : loop_end S) : S :=
  match r with
  | Exited s => s
  | Threw _ s => s
  end.

(** A loop body that issues one request per turn and counts the pages it
    goes past. *)
Definition one_request_per_turn {U A : Type}
  (body : fetch_state U A -> step (fetch_state U A)) : Prop :=
  forall s,
    match body s with
    | Continue s' =>
        page_count s' = S (page_count s) /\
        length (trace s') = S (length (trace s))
    | Break s' => (length (trace s') <= S (length (trace s)))%nat
    | Throw _ s' => (length (trace s') <= S (length (trace s)))%nat
    end.

Lemma paged_loop_bound {U A : Type}
  (body : fetch_state U A -> step (fetch_state U A)) :
  one_request_per_turn body ->
  forall fuel s r,
    (page_count s <= 50)%nat ->
    while_loop fuel paged_cond body s = Some r ->
    (length (trace (end_state r)) + page_count s
     <= length (trace s) + 50)%nat.
Proof.
  intros Hb. induction fuel as [|fuel IH]; intros s r Hpc; [discriminate|].
  rewrite while_loop_unfold. unfold paged_cond at 1.
  destruct (bool_decide (is_Some (next_url s))); simpl;
    [|intros [= <-]; simpl; lia].
  destruct (Nat.ltb_spec (page_count s) 50); [|intros [= <-]; simpl; lia].
  specialize (Hb s). destruct (body s) as [s'|s'|e s'].
  - destruct Hb as [Hp Ht]. intros Hr.
    apply IH in Hr; [lia | lia].
  - intros [= <-]. simpl. lia.
  - intros [= <-]. simpl. lia.
Qed.

Lemma paged_loop_terminates {U A : Type}
  (body : fetch_state U A -> step (fetch_state U A)) :
  one_request_per_turn body ->
  forall fuel s,
    (50 - page_count s < fuel)%nat ->
    exists r, while_loop fuel paged_cond body s = Some r.
Proof.
  intros Hb. induction fuel as [|fuel IH]; intros s Hf; [lia|].
  rewrite while_loop_unfold. unfold paged_cond at 1.
  destruct (bool_decide (is_Some (next_url s))); simpl; [|eauto].
  destruct (Nat.ltb_spec (page_count s) 50); [|eauto].
  specialize (Hb s). destruct (body s) as [s'|s'|e s']; [|eauto|eauto].
  destruct Hb as [Hp Ht]. apply IH. lia.
Qed.

Lemma customers_body_one_request {U : Type}
  (src : U -> response customer U) ws we :
  one_request_per_turn (customers_body src ws we).
Proof.
  intros s. unfold customers_body.
  destruct (next_url s) as [u|]; [|simpl; lia].
  destruct (src u) as [|code json]; [simpl; rewrite length_app; simpl; lia|].
  destruct (negb (code =? 200)); [simpl; rewrite length_app; simpl; lia|].
  destruct (data json) as [|c batch]; [simpl; rewrite length_app; simpl; lia|].
  cbn [page_count acc snd fst next_url trace].
  destruct (scan_customers ws we (c :: batch) (snd (acc s))) as [stop kept].
  destruct stop; simpl; rewrite length_app; simpl; lia.
Qed.

Lemma sales_body_one_request {U : Type}
  (src : U -> response purchase U) ws we :
  one_request_per_turn (sales_body src ws we).
Proof.
  intros s. unfold sales_body.
  destruct (next_url s) as [u|]; [|simpl; lia].
  destruct (src u) as [|code json]; [simpl; rewrite length_app; simpl; lia|].
  destruct (negb (code =? 200)); [simpl; rewrite length_app; simpl; lia|].
  destruct (data json) as [|c batch]; [simpl; rewrite length_app; simpl; lia|].
  cbn [page_count acc snd fst next_url trace].
  destruct (scan_purchases ws we (c :: batch) (fst (acc s)) (snd (acc s)))
    as [stop kept].
  destruct stop; simpl; rewrite length_app; simpl; lia.
Qed.

(** The two Kajabi bodies never raise out of the loop. *)
Lemma customers_body_no_throw {U : Type}
  (src : U -> response customer U) ws we s e s' :
  customers_body src ws we s <> Throw e s'.
Proof.
  unfold customers_body.
  destruct (next_url s) as [u|]; [|discriminate].
  destruct (src u) as [|code json]; [discriminate|].
  destruct (negb (code =? 200)); [discriminate|].
  destruct (data json) as [|c batch]; [discriminate|].
  destruct (scan_customers _ _ _ _) as [[] kept]; discriminate.
Qed.

Lemma sales_body_no_throw {U : Type}
  (src : U -> response purchase U) ws we s e s' :
  sales_body src ws we s <> Throw e s'.
Proof.
  unfold sales_body.
  destruct (next_url s) as [u|]; [|discriminate].
  destruct (src u) as [|code json]; [discriminate|].
  destruct (negb (code =? 200)); [discriminate|].
  destruct (data json) as [|c batch]; [discriminate|].
  destruct (scan_purchases _ _ _ _ _) as [[] kept]; discriminate.
Qed.

Lemma while_loop_no_throw {S : Type} cond (body : S -> step S) :
  (forall s e s', body s <> Throw e s') ->
  forall fuel s e s', while_loop fuel cond body s <> Some (Threw e s').
Proof.
  intros Hb. induction fuel as [|fuel IH]; intros s e s'; [discriminate|].
  rewrite while_loop_unfold. destruct (cond s); [|discriminate].
  destruct (body s) as [s1|s1|e1 s1] eqn:E; [apply IH | discriminate|].
  exfalso. exact (Hb _ _ _ E).
Qed.

(** ** The HubSpot deal search *)

(** The deals the Flask loop keeps out of a batch. *)
Definition kept_deals (owner_map : gmap string string) (ds : list deal)
  : list deal :=
  List.filter (fun r => negb (excluded_owner owner_map r)) ds.

(** The cursor that asks for page [i] of a listing: none for the first. *)
Definition cursor_of (i : nat) : option nat :=
  match i with
  | O => None
  | S _ => Some i
  end.

Lemma keep_deals_spec owner_map results all_results :
  keep_deals owner_map results all_results
  = all_results ++ kept_deals owner_map results.
Proof.
  unfold keep_deals, kept_deals. revert all_results.
  induction results as [|r results IH]; intros acc0; simpl.
  - rewrite app_nil_r. reflexivity.
  - rewrite IH. destruct (excluded_owner owner_map r); simpl;
      [|rewrite <- app_assoc]; reflexivity.
Qed.

Lemma kept_deals_app owner_map l1 l2 :
  kept_deals owner_map (l1 ++ l2)
  = kept_deals owner_map l1 ++ kept_deals owner_map l2.
Proof. apply List.filter_app. Qed.

Lemma serve_search_cursor {R : Type} (pages : list (list R)) i :
  serve_search pages (cursor_of i) = serve_from pages i.
Proof. destruct i; reflexivity. Qed.



Lemma deals_body_page {C : Type} (src : option C -> response deal C)
  owner_map s json :
  src (after s) = Resp 200 json ->
  deals_body src owner_map s
  = let s' := mksearch (next json)
                (all_results s ++ kept_deals owner_map (data json))
                (requests s ++ [after s]) in
    match next json with
    | None => Break s'
    | Some _ => Continue s'
    end.
Proof.
  intros Hsrc. unfold deals_body. cbn [after all_results requests].
  rewrite Hsrc. cbn [Z.eqb Pos.eqb]. rewrite keep_deals_spec.
  destruct (next json); reflexivity.
Qed.

(** The Flask loop over a complete listing of pages. *)
Lemma deals_loop_listing owner_map (pages : list (list deal)) :
  forall k i acc0 reqs fuel,
    (i + S k)%nat = length pages -> (k < fuel)%nat ->
    while_loop fuel (fun _ => true)
               (deals_body (serve_search pages) owner_map)
               (mksearch (cursor_of i) acc0 reqs)
    = Some (Exited (mksearch None
                      (acc0 ++ kept_deals owner_map (concat (drop i pages)))
                      (reqs ++ map cursor_of (seq i (S k))))).
Proof.
  induction k as [|k IH]; intros i acc0 reqs fuel Hlen Hf;
    (destruct fuel as [|fuel]; [lia|]); rewrite while_loop_unfold;
    (destruct (pages !! i) as [batch|] eqn:Ei;
     [|apply lookup_ge_None in Ei; lia]);
    rewrite (drop_S _ _ _ Ei); cbn [concat]; rewrite kept_deals_app.
  - rewrite (deals_body_page _ _ _
               (mkpage batch None (Z.of_nat (length pages)))).
    + cbn [next data after all_results requests].
      rewrite drop_ge by lia. cbn [concat]. unfold kept_deals at 2.
      cbn [List.filter]. rewrite app_nil_r. reflexivity.
    + cbn [after]. rewrite serve_search_cursor. unfold serve_from.
      rewrite Ei. destruct (Nat.ltb_spec (S i) (length pages)); [lia|].
      reflexivity.
  - rewrite (deals_body_page _ _ _
               (mkpage batch (Some (S i)) (Z.of_nat (length pages)))).
    + cbn [next data after all_results requests].
      change (Some (S i)) with (cursor_of (S i)).
      rewrite (IH (S i)) by lia.
      rewrite <- !app_assoc. reflexivity.
    + cbn [after]. rewrite serve_search_cursor. unfold serve_from.
      rewrite Ei. destruct (Nat.ltb_spec (S i) (length pages)); [|lia].
      reflexivity.
Qed.










(** ** The product listing *)

Lemma products_loop_listing (pages : list (list product)) :
  forall k i acc0 tr fuel,
    (i + S k)%nat = length pages -> (S k < fuel)%nat ->
    while_loop fuel products_cond (products_body (serve_from pages))
               (mkfetch (Some i) 0%nat acc0 tr)
    = Some (Exited (mkfetch None 0%nat
                      (acc0 ++ map product_row_of (concat (drop i pages)))
                      (tr ++ seq i (S k)))).
Proof.
  induction k as [|k IH]; intros i acc0 tr fuel Hlen Hf;
    (destruct fuel as [|fuel]; [lia|]); rewrite while_loop_unfold;
    (destruct (pages !! i) as [batch|] eqn:Ei;
     [|apply lookup_ge_None in Ei; lia]);
    rewrite (drop_S _ _ _ Ei); cbn [concat]; rewrite map_app;
    unfold products_cond at 1, products_body at 1;
    cbn [next_url page_count acc trace bool_decide];
    unfold serve_from at 1; rewrite Ei.
  - destruct (Nat.ltb_spec (S i) (length pages)); [lia|].
    rewrite bool_decide_eq_true_2 by eauto.
    cbn [negb Z.eqb Pos.eqb next data].
    destruct fuel as [|fuel]; [lia|]. rewrite while_loop_unfold.
    unfold products_cond at 1. cbn [next_url].
    rewrite bool_decide_eq_false_2 by (intros [? ?]; discriminate).
    rewrite drop_ge by lia. cbn [concat map]. rewrite app_nil_r.
    reflexivity.
  - destruct (Nat.ltb_spec (S i) (length pages)); [|lia].
    rewrite bool_decide_eq_true_2 by eauto.
    cbn [negb Z.eqb Pos.eqb next data].
    rewrite (IH (S i)) by lia.
    rewrite <- !app_assoc. reflexivity.
Qed.

(** C3, as the code has it. The two windowed Kajabi loops end after at
    most 50 page requests on every source. The Flask deal search and the
    product listing have no such bound: over a complete listing they issue
    one request per page, however many pages there are. *)
Theorem page_requests_bounded :
  (forall (U : Type) (src : U -> response customer U) first ws we fuel,
     (50 < fuel)%nat ->
     exists s,
       customers_loop fuel src first ws we = Some (Exited s) /\
       (length (trace s) <= 50)%nat) /\
  (forall (U : Type) (src : U -> response purchase U) first ws we fuel,
     (50 < fuel)%nat ->
     exists s,
       sales_loop fuel src first ws we = Some (Exited s) /\
       (length (trace s) <= 50)%nat) /\
  (forall (pages : list (list deal)) owner_map fuel,
     pages <> [] -> (length pages < fuel)%nat ->
     exists s,
       deals_loop fuel (serve_search pages) owner_map = Some (Exited s) /\
       length (requests s) = length pages) /\
  (forall (pages : list (list product)) token fuel,
     pages <> [] -> (S (length pages) < fuel)%nat ->
     exists products requests,
       get_kajabi_products fuel (Some token) (serve_from pages) 0%nat
       = Some (products, requests) /\
       length requests = length pages).
Proof.
  split; [|split; [|split]].
  - intros U src first ws we fuel Hf. unfold customers_loop.
    pose proof (customers_body_one_request src ws we) as Hb.
    destruct (paged_loop_terminates _ Hb fuel
                (mkfetch (Some first) 0%nat (0, []) [])) as [r Hr];
      [simpl; lia|].
    rewrite Hr. destruct r as [s|e s].
    + exists s. split; [reflexivity|].
      assert (Hbd := paged_loop_bound _ Hb fuel
                       (mkfetch (Some first) 0%nat (0, []) []) (Exited s)
                       (Nat.le_0_l 50) Hr).
      simpl in Hbd. lia.
    + exfalso. revert Hr. apply while_loop_no_throw.
      intros. apply customers_body_no_throw.
  - intros U src first ws we fuel Hf. unfold sales_loop.
    pose proof (sales_body_one_request src ws we) as Hb.
    destruct (paged_loop_terminates _ Hb fuel
                (mkfetch (Some first) 0%nat (0%Q, []) [])) as [r Hr];
      [simpl; lia|].
    rewrite Hr. destruct r as [s|e s].
    + exists s. split; [reflexivity|].
      assert (Hbd := paged_loop_bound _ Hb fuel
                       (mkfetch (Some first) 0%nat (0%Q, []) []) (Exited s)
                       (Nat.le_0_l 50) Hr).
      simpl in Hbd. lia.
    + exfalso. revert Hr. apply while_loop_no_throw.
      intros. apply sales_body_no_throw.
  - intros pages owner_map fuel Hne Hf.
    assert (Hlen : (0 + S (pred (length pages)))%nat = length pages)
      by (destruct pages; [congruence | simpl; lia]).
    eexists. split.
    + unfold deals_loop.
      change (mksearch None [] []) with (@mksearch nat (cursor_of 0) [] []).
      apply (deals_loop_listing owner_map pages (pred (length pages)) 0%nat
               [] [] fuel Hlen). lia.
    + cbn [requests app]. rewrite length_map, length_seq. lia.
  - intros pages token fuel Hne Hf.
    assert (Hlen : (0 + S (pred (length pages)))%nat = length pages)
      by (destruct pages; [congruence | simpl; lia]).
    unfold get_kajabi_products.
    rewrite (products_loop_listing pages (pred (length pages)) 0%nat [] []
               fuel Hlen ltac:(lia)).
    eexists _, _. split; [reflexivity|].
    cbn [trace app]. rewrite length_seq. lia.
Qed.

Lemma page_requests_bounded_witness :
  exists s,
    customers_loop 60 (serve_forever [mkcustomer 1 (At 9) (At 9)]) 0%nat 6 20
    = Some (Exited s) /\
    (length (trace s) <= 50)%nat.
Proof.
  apply (proj1 page_requests_bounded nat
           (serve_forever [mkcustomer 1 (At 9) (At 9)]) 0%nat 6 20 60%nat).
  lia.
Defined.

(** C3 as stated fails: over a listing of 51 pages the Flask deal search
    issues 51 requests. *)
Lemma page_cap_counterexample :
  exists s,
    deals_loop 60 (serve_search (repeat [mkdeal 1 None NoAmount Absent] 51)) ∅
    = Some (Exited s) /\
    length (requests s) = 51%nat.
Proof.
  eexists. split; [vm_compute; reflexivity | reflexivity].
Qed.

(** ** Percentage deltas *)

Lemma Qpositive_true q : Qpositive q = true <-> (0 < q)%Q.
Proof.
  unfold Qpositive. rewrite negb_true_iff. split.
  - intros H. apply Qnot_le_lt. intros Hle.
    apply Qle_bool_iff in Hle. congruence.
  - intros H. apply not_true_is_false. intros Hle.
    apply Qle_bool_iff in Hle. apply (Qlt_not_le _ _ H Hle).
Qed.

Lemma Qpositive_false q : Qpositive q = false <-> (q <= 0)%Q.
Proof.
  unfold Qpositive. rewrite negb_false_iff. apply Qle_bool_iff.
Qed.

(** C5, as the code has it. The percentage of [api_buy] and of
    [api_discover] is (current - prior) / prior * 100 whenever the prior
    value is positive, and 0 whenever it is zero or negative. *)
Theorem delta_pct_positive_prior :
  (forall m1_val m2_val : Q,
     (0 < m2_val)%Q ->
     api_buy_pct m1_val m2_val = ((m1_val - m2_val) / m2_val * 100)%Q) /\
  (forall m1_val m2_val : Q,
     (m2_val <= 0)%Q -> api_buy_pct m1_val m2_val = 0%Q) /\
  (forall m1_val m2_val : Z,
     0 < m2_val ->
     api_discover_pct m1_val m2_val
     = (inject_Z (m1_val - m2_val) / inject_Z m2_val * 100)%Q) /\
  (forall m1_val m2_val : Z,
     m2_val <= 0 -> api_discover_pct m1_val m2_val = 0%Q).
Proof.
  split; [|split; [|split]].
  - intros m1 m2 H. unfold api_buy_pct, api_buy_deltas. cbn [snd].
    apply Qpositive_true in H. rewrite H. reflexivity.
  - intros m1 m2 H. unfold api_buy_pct, api_buy_deltas. cbn [snd].
    apply Qpositive_false in H. rewrite H. reflexivity.
  - intros m1 m2 H. unfold api_discover_pct.
    destruct (Z.ltb_spec 0 m2); [reflexivity | lia].
  - intros m1 m2 H. unfold api_discover_pct.
    destruct (Z.ltb_spec 0 m2); [lia | reflexivity].
Qed.

Lemma delta_pct_positive_prior_witness :
  api_buy_pct 150 100 = ((150 - 100) / 100 * 100)%Q.
Proof.
  apply (proj1 delta_pct_positive_prior 150%Q 100%Q).
  reflexivity.
Defined.

(** C5 as stated fails: a prior revenue of -50 is not zero, and the
    percentage reported is 0, not (100 - (-50)) / (-50) * 100 = -300. *)
Lemma delta_pct_negative_prior_counterexample :
  ~ (-50 == 0)%Q /\
  api_buy_pct 100 (-50) = 0%Q /\
  ~ (api_buy_pct 100 (-50) == (100 - (-50)) / (-50) * 100)%Q.
Proof.
  split; [intros H; vm_compute in H; discriminate|].
  split; [reflexivity|].
  intros H. vm_compute in H. discriminate.
Qed.
